(** * autocord: the lecture-summary bot of [main.py]

    A shallow embedding of the three bot commands ([addsubject],
    [setplaylist], [latestlec]), of the in-memory registry [user_data]
    they share, and of the helper [extract_playlist_id].

    Conventions of the model.
    - Python [str] values are [string] (bytes of the UTF-8 encoding).
    - [user_data], a dict of dicts of two-key dicts, is a
      [gmap Z (gmap string subject)].
    - The three upstream services are oracles carried by a [services]
      record; every call made is appended to a call log.
    - Every [ctx.send] is appended to a reply log, one constructor of
      [reply] per call site, and [render] gives the text that is sent.
    - The text of a caption entry is a [str] or a value of another class
      ([pyval]), on which [str.join] raises.
    - A Python exception is the pair of its class name and its [str];
      the handlers catch [Exception], and only such exceptions are
      modelled.
    - A command runs from start to end on the registry it finds, and its
      [ctx.send] calls succeed. *)

From Stdlib Require Import ZArith NArith Ascii String List DecimalString.
From stdpp Require Import base option gmap strings list fin_maps.
Import ListNotations.

Local Open Scope Z_scope.

(** ** Strings *)

Module Str.

Definition nl : string := String "010"%char EmptyString.

Definition code (c : ascii) : N := Stdlib.Strings.Ascii.N_of_ascii c.

Definition in_range (lo hi c : ascii) : bool :=
  ((code lo <=? code c) && (code c <=? code hi))%N.

Definition eqb_char (a b : ascii) : bool := (code a =? code b)%N.

(** [s.startswith(p)] *)
Fixpoint starts_with (p s : string) : bool :=
  match p with
  | EmptyString => true
  | String a p' =>
      match s with
      | EmptyString => false
      | String b s' => eqb_char a b && starts_with p' s'
      end
  end.

(** [s[n:]] *)
Fixpoint drop (n : nat) (s : string) : string :=
  match n with
  | O => s
  | S n' => match s with EmptyString => EmptyString | String _ s' => drop n' s' end
  end.

(** The longest prefix of [s] whose characters all satisfy [p]. *)
Fixpoint take_while (p : ascii -> bool) (s : string) : string :=
  match s with
  | EmptyString => EmptyString
  | String c s' => if p c then String c (take_while p s') else EmptyString
  end.

Fixpoint all_chars (p : ascii -> bool) (s : string) : bool :=
  match s with
  | EmptyString => true
  | String c s' => p c && all_chars p s'
  end.

Definition is_empty (s : string) : bool :=
  match s with EmptyString => true | String _ _ => false end.

(** [len(s)] *)
Fixpoint len (s : string) : nat :=
  match s with EmptyString => O | String _ s' => S (len s') end.

(** [s] is empty or its first character fails [p]. *)
Definition stops (p : ascii -> bool) (s : string) : bool :=
  match s with EmptyString => true | String c _ => negb (p c) end.

(** [sub in s] *)
Fixpoint contains (sub s : string) : bool :=
  starts_with sub s ||
  match s with
  | EmptyString => false
  | String _ s' => contains sub s'
  end.

(** [sep.join(parts)] *)
Fixpoint join (sep : string) (parts : list string) : string :=
  match parts with
  | [] => EmptyString
  | [p] => p
  | p :: rest => p +:+ sep +:+ join sep rest
  end.

(** ASCII instance of [str.lower], used for concrete runs. *)
Definition lower_char (c : ascii) : ascii :=
  if in_range "A" "Z" c
  then Stdlib.Strings.Ascii.ascii_of_N (code c + 32)
  else c.

Fixpoint ascii_lower (s : string) : string :=
  match s with
  | EmptyString => EmptyString
  | String c s' => String (lower_char c) (ascii_lower s')
  end.

End Str.

(** ** Helper functions *)

(** The character class [[a-zA-Z0-9_-]] of the pattern. *)
Definition id_char (c : ascii) : bool :=
  Str.in_range "a" "z" c || Str.in_range "A" "Z" c || Str.in_range "0" "9" c
  || Str.eqb_char c "_" || Str.eqb_char c "-".

(** [re.search(r"list=([a-zA-Z0-9_-]+)", url)] followed by
    [match.group(1) if match else None].  The search tries every start
    position from the left; at a position the literal [list=] must be
    followed by at least one class character, and the greedy [+] takes the
    whole run of them. *)
Fixpoint extract_playlist_id (url : string) : option string :=
  let here :=
    if Str.starts_with "list=" url
    then let tok := Str.take_while id_char (Str.drop 5 url) in
         if Str.is_empty tok then None else Some tok
    else None in
  match here with
  | Some tok => Some tok
  | None =>
      match url with
      | EmptyString => None
      | String _ rest => extract_playlist_id rest
      end
  end.

(** ** Data model *)

(** [type(e).__name__] and [str(e)] of a raised exception. *)
Record exception := Exc { exc_type : string; exc_str : string }.

(** The dict stored under ['cached_lecture']. *)
Record lecture_cache := LectureCache {
  c_transcript : string;
  c_summary : string;
  c_title : string
}.

(** The dict stored per subject; [None] is Python's [None]. *)
Record subject := Subject {
  playlist_id : option string;
  cached_lecture : option lecture_cache
}.

Abbreviation profile := (gmap string subject).
Abbreviation registry := (gmap Z profile).

(** What a command reads of [ctx]: whether [ctx.channel] is a
    [discord.DMChannel], and [ctx.author.id]. *)
Record context := Context { is_dm : bool; author_id : Z }.

(** ** The upstream services *)

(** The snippet of a playlist item, as far as the bot reads it. *)
Record snippet := Snippet { videoId : string; snippet_title : string }.

(** A value found as the text of a caption entry: a [str], or a value of
    some other class. *)
Inductive pyval :=
| PyStr (s : string)
| PyOther (cls : string).

(** A caption entry: a dict, with or without a ['text'] key, or an object
    of some class, with or without a [text] attribute. *)
Inductive caption :=
| DictItem (text : option pyval)
| ObjItem (cls : string) (text : option pyval).

(** A value that the bot iterates over. *)
Inductive pyseq :=
| NotIterable (cls : string)
| Seq (items : list caption).

(** The value returned by [ytt_api.fetch]: its optional [transcript] and
    [captions] attributes, and what iterating the value itself gives. *)
Record transcript_data := TranscriptData {
  attr_transcript : option pyseq;
  attr_captions : option pyseq;
  iteration : pyseq
}.

(** One oracle per service; [inl e] is a raised exception.
    [playlist_items pid] is [response['items']] of the
    [playlistItems().list(part="snippet", playlistId=pid, maxResults=1)]
    request, [fetch vid] is [ytt_api.fetch(vid)], and [chat_completion p] is
    [choices[0].message.content] of the completion of the one-message
    conversation [p] with model [gpt-4o]. *)
Record services := Services {
  playlist_items : string -> exception + list snippet;
  fetch : string -> exception + transcript_data;
  chat_completion : string -> exception + string
}.

Inductive call :=
| YoutubeList (playlist : string)
| TranscriptFetch (video : string)
| ChatCompletion (prompt : string).

(** ** Replies *)

(** One constructor per [ctx.send] call site. *)
Inductive reply :=
| DmOnlyPrivate
| DmOnly
| AlreadyTracking (subject_name : string)
| SubjectAdded (subject_name : string)
| SubjectMissing (subject_name : string)
| PlaylistLocked (subject_name : string)
| InvalidPlaylistUrl
| NotSetUp (subject_name : string)
| OnIt
| PlaylistEmpty
| FoundIt (video_title : string)
| TranscriptError (e : exception) (video_url : string)
| TranscriptAcquired
| SummaryEmbed (video_title summary video_url subject_name : string)
| Whoops (e : exception).

Inductive message :=
| Text (content : string)
| Embed (title description field_name field_value footer : string).

Definition render (r : reply) : message :=
  match r with
  | DmOnlyPrivate =>
      Text "Hey, this command only works in our DMs. Keeps things private!"
  | DmOnly => Text "Hey, this command only works in our DMs!"
  | AlreadyTracking s =>
      Text ("Looks like you're already tracking '" +:+ s +:+ "'.")
  | SubjectAdded s =>
      Text ("Cool, I've added '" +:+ s +:+ "' to your list. Now use `!setplaylist "
            +:+ s +:+ " [url]` to give me the YouTube playlist.")
  | SubjectMissing s =>
      Text ("Hmm, I can't find '" +:+ s
            +:+ "' in your list. Try adding it first with `!addsubject "
            +:+ s +:+ "`.")
  | PlaylistLocked s =>
      Text ("Got it. Playlist for '" +:+ s
            +:+ "' is locked in. You're all set to use `!latestlec`.")
  | InvalidPlaylistUrl =>
      Text "That doesn't look like a valid YouTube playlist URL. Make sure it has `list=` in it and try again."
  | NotSetUp s =>
      Text ("Looks like '" +:+ s
            +:+ "' isn't fully set up. Make sure you've added the subject and set its playlist first.")
  | OnIt => Text "On it! Checking the playlist for the latest lecture... 🕵️"
  | PlaylistEmpty => Text "I looked, but that playlist seems to be empty."
  | FoundIt t => Text ("Found it: **" +:+ t +:+ "**. Grabbing the transcript now.")
  | TranscriptError e video_url =>
      Text ("Bummer, I couldn't get a transcript for this video. Error: "
            +:+ exc_type e +:+ ": " +:+ exc_str e +:+ Str.nl +:+ Str.nl
            +:+ "Here's the link anyway: " +:+ video_url)
  | TranscriptAcquired =>
      Text "Transcript acquired. Sending it to the AI brain for summarization. This can take a moment..."
  | SummaryEmbed t s video_url subject_name =>
      Embed ("📝 Here's the TL;DW for: " +:+ t) s
            "Watch the Full Lecture"
            ("[Click here to watch](" +:+ video_url +:+ ")")
            ("Now you can run !quizme " +:+ subject_name
             +:+ " for a quick quiz on this.")
  | Whoops e =>
      Text ("Whoops, something went wrong on my end. Maybe check the YouTube API key or Playlist ID? Error: "
            +:+ exc_str e)
  end.

(** What a command leaves behind: the registry, the service calls it made
    and the replies it sent, both in order. *)
Record result := Result {
  data : registry;
  calls : list call;
  sent : list reply
}.

(** The last reply of a run is its terminal outcome. *)
Definition terminal (r : result) : option reply := last (sent r).

(** ** The transcript stage (the inner [try] of [latest_lecture_summary]) *)

Definition iterate (v : pyseq) : exception + list caption :=
  match v with
  | NotIterable cls =>
      inl (Exc "TypeError" ("'" +:+ cls +:+ "' object is not iterable"))
  | Seq items => inr items
  end.

(** [item['text'] if isinstance(item, dict) else item.text] *)
Definition item_text (item : caption) : exception + pyval :=
  match item with
  | DictItem (Some t) => inr t
  | DictItem None => inl (Exc "KeyError" "'text'")
  | ObjItem _ (Some t) => inr t
  | ObjItem cls None =>
      inl (Exc "AttributeError"
               ("'" +:+ cls +:+ "' object has no attribute 'text'"))
  end.

(** The list comprehension: the first entry without a text raises. *)
Fixpoint texts (items : list caption) : exception + list pyval :=
  match items with
  | [] => inr []
  | item :: rest =>
      match item_text item with
      | inl e => inl e
      | inr t =>
          match texts rest with
          | inl e => inl e
          | inr ts => inr (t :: ts)
          end
      end
  end.

(** The [hasattr] chain choosing [transcript_list]. *)
Definition transcript_list (d : transcript_data) : pyseq :=
  match attr_transcript d with
  | Some v => v
  | None =>
      match attr_captions d with
      | Some v => v
      | None => iteration d
      end
  end.

(** The strings of a list of values, for [str.join]: the first value
    that is not a [str] raises, and the error names its position, counted
    from [i], and its class. *)
Fixpoint strs_from (i : nat) (vals : list pyval) : exception + list string :=
  match vals with
  | [] => inr []
  | PyStr s :: rest =>
      match strs_from (S i) rest with
      | inl e => inl e
      | inr ss => inr (s :: ss)
      end
  | PyOther cls :: _ =>
      inl (Exc "TypeError"
               ("sequence item " +:+ NilEmpty.string_of_uint (Nat.to_uint i)
                +:+ ": expected str instance, " +:+ cls +:+ " found"))
  end.

(** [sep.join(vals)] on values that need not all be strings. *)
Definition py_join (sep : string) (vals : list pyval) : exception + string :=
  match strs_from 0 vals with
  | inl e => inl e
  | inr ss => inr (Str.join sep ss)
  end.

(** Line 142: [" ".join([... for item in transcript_list])] on the value
    chosen: it is iterated, the text of each entry is taken, and the
    texts are joined. *)
Definition join_texts (v : pyseq) : exception + string :=
  match iterate v with
  | inl e => inl e
  | inr items =>
      match texts items with
      | inl e => inl e
      | inr vals => py_join " " vals
      end
  end.

Definition normalize (d : transcript_data) : exception + string :=
  join_texts (transcript_list d).

(** [fetch] followed by the normalisation, as one fallible step. *)
Definition resolve_transcript (env : services) (video_id : string)
  : exception + string :=
  match fetch env video_id with
  | inl e => inl e
  | inr d => normalize d
  end.

Definition build_prompt (video_title transcript_text : string) : string :=
  "Summarize the key points of the following lecture transcript into clear, concise bullet points. Make it easy to digest. Lecture Title: "
  +:+ video_title +:+ Str.nl +:+ Str.nl +:+ "Transcript:" +:+ Str.nl
  +:+ transcript_text.

Definition watch_url (video_id : string) : string :=
  "https://www.youtube.com/watch?v=" +:+ video_id.

(** ** The bot commands *)

Section Commands.

(** [str.lower].  The commands only ever apply it to the subject name,
    so it stays a parameter: every statement below holds for Python's
    full Unicode lowering as well as for [Str.ascii_lower]. *)
Variable lower : string -> string.

(** [!addsubject] *)
Definition add_subject (ctx : context) (subject_name : string)
    (user_data : registry) : result :=
  if negb (is_dm ctx) then Result user_data [] [DmOnlyPrivate]
  else
    let user_id := author_id ctx in
    let subject_name := lower subject_name in
    let user_data :=
      match user_data !! user_id with
      | None => <[user_id := ∅]> user_data
      | Some _ => user_data
      end in
    let user_profile : profile := default ∅ (user_data !! user_id) in
    match user_profile !! subject_name with
    | Some _ => Result user_data [] [AlreadyTracking subject_name]
    | None =>
        Result (<[user_id := <[subject_name := Subject None None]> user_profile]>
                  user_data)
               [] [SubjectAdded subject_name]
    end.

(** [!setplaylist] *)
Definition set_playlist (ctx : context) (subject_name playlist_url : string)
    (user_data : registry) : result :=
  if negb (is_dm ctx) then Result user_data [] [DmOnly]
  else
    let user_id := author_id ctx in
    let subject_name := lower subject_name in
    match user_data !! user_id with
    | None => Result user_data [] [SubjectMissing subject_name]
    | Some user_profile =>
        match user_profile !! subject_name with
        | None => Result user_data [] [SubjectMissing subject_name]
        | Some subj =>
            match extract_playlist_id playlist_url with
            | Some pid =>
                if Str.is_empty pid
                then Result user_data [] [InvalidPlaylistUrl]
                else
                  Result (<[user_id :=
                              <[subject_name :=
                                  Subject (Some pid) (cached_lecture subj)]>
                                user_profile]> user_data)
                         [] [PlaylistLocked subject_name]
            | None => Result user_data [] [InvalidPlaylistUrl]
            end
        end
    end.

(** The set-up check of [!latestlec]: the playlist id of a subject that
    is registered and linked.  ([not user_profile] also rejects an empty
    profile, in which the subject lookup fails anyway.) *)
Definition configured (user_data : registry) (user_id : Z)
    (subject_name : string) : option (profile * subject * string) :=
  match user_data !! user_id with
  | None => None
  | Some user_profile =>
      match user_profile !! subject_name with
      | None => None
      | Some subj =>
          match playlist_id subj with
          | None => None
          | Some pid => Some (user_profile, subj, pid)
          end
      end
  end.

(** [!latestlec] *)
Definition latest_lecture_summary (ctx : context) (subject_name : string)
    (env : services) (user_data : registry) : result :=
  if negb (is_dm ctx) then Result user_data [] [DmOnly]
  else
    let user_id := author_id ctx in
    let subject_name := lower subject_name in
    match configured user_data user_id subject_name with
    | None => Result user_data [] [NotSetUp subject_name]
    | Some (user_profile, subj, pid) =>
        match playlist_items env pid with
        | inl e => Result user_data [YoutubeList pid] [OnIt; Whoops e]
        | inr [] => Result user_data [YoutubeList pid] [OnIt; PlaylistEmpty]
        | inr (latest_video :: _) =>
            let video_id := videoId latest_video in
            let video_title := snippet_title latest_video in
            let video_url := watch_url video_id in
            match resolve_transcript env video_id with
            | inl e =>
                Result user_data
                       [YoutubeList pid; TranscriptFetch video_id]
                       [OnIt; FoundIt video_title; TranscriptError e video_url]
            | inr transcript_text =>
                let prompt := build_prompt video_title transcript_text in
                match chat_completion env prompt with
                | inl e =>
                    Result user_data
                           [YoutubeList pid; TranscriptFetch video_id;
                            ChatCompletion prompt]
                           [OnIt; FoundIt video_title; TranscriptAcquired;
                            Whoops e]
                | inr summary =>
                    Result (<[user_id :=
                                <[subject_name :=
                                    Subject (playlist_id subj)
                                      (Some (LectureCache transcript_text
                                               summary video_title))]>
                                  user_profile]> user_data)
                           [YoutubeList pid; TranscriptFetch video_id;
                            ChatCompletion prompt]
                           [OnIt; FoundIt video_title; TranscriptAcquired;
                            SummaryEmbed video_title summary video_url
                              subject_name]
                end
            end
        end
    end.

(** ** Sessions: the registry over a sequence of commands *)

Inductive command :=
| AddSubject (ctx : context) (subject_name : string)
| SetPlaylist (ctx : context) (subject_name playlist_url : string)
| LatestLec (ctx : context) (subject_name : string) (env : services).

Definition exec (c : command) (user_data : registry) : result :=
  match c with
  | AddSubject ctx s => add_subject ctx s user_data
  | SetPlaylist ctx s url => set_playlist ctx s url user_data
  | LatestLec ctx s env => latest_lecture_summary ctx s env user_data
  end.

(** The registry after the commands of [cs], oldest first, starting from
    the empty [user_data] of a fresh process. *)
Definition session (cs : list command) : registry :=
  fold_left (fun user_data c => data (exec c user_data)) cs ∅.

End Commands.

(** The entry of a subject, if the user has one under that (already
    lowered) name: [user_data[user_id][subject_name]] guarded by the two
    membership tests of the commands. *)
Definition get_subject (user_data : registry) (user_id : Z)
    (subject_name : string) : option subject :=
  match user_data !! user_id with
  | None => None
  | Some user_profile => user_profile !! subject_name
  end.

(** The context a command was invoked in, and the notice it sends outside
    a direct-message channel. *)
Definition command_ctx (c : command) : context :=
  match c with
  | AddSubject ctx _ => ctx
  | SetPlaylist ctx _ _ => ctx
  | LatestLec ctx _ _ => ctx
  end.

Definition dm_notice (c : command) : reply :=
  match c with
  | AddSubject _ _ => DmOnlyPrivate
  | SetPlaylist _ _ _ => DmOnly
  | LatestLec _ _ _ => DmOnly
  end.

Definition is_chat_completion (c : call) : bool :=
  match c with ChatCompletion _ => true | _ => false end.

Definition is_transcript_fetch (c : call) : bool :=
  match c with TranscriptFetch _ => true | _ => false end.

(** The text a caption entry bears, if any. *)
Definition caption_text (item : caption) : option pyval :=
  match item with
  | DictItem t => t
  | ObjItem _ t => t
  end.

(** The entries of [items] all bear a text that is a [str], and [ts] are
    these texts in order. *)
Definition str_texts (items : list caption) (ts : list string) : Prop :=
  map caption_text items = map (fun t => Some (PyStr t)) ts.

(** A string that already has the shape of a playlist identifier. *)
Definition identifier_shaped (s : string) : Prop :=
  Str.is_empty s = false /\ Str.all_chars id_char s = true.

(** A cached lecture all of whose fields are non-empty. *)
Definition fields_nonempty (cache : lecture_cache) : Prop :=
  c_title cache <> "" /\ c_transcript cache <> "" /\ c_summary cache <> "".

(** [produced_by lower before c user_id subject_name cache]: run on the
    registry [before], the command [c] is a [!latestlec] of that user for
    that subject, sent in a DM, that went through all its stages and
    wrote [cache]: the subject held a playlist id, the lookup for it
    returned a first item, the transcript fetched for that item's video
    normalised to the cached transcript, the completion for the prompt
    built from exactly that title and transcript is the cached summary,
    and the run made these three calls, ended with the summary embed and
    left [cache] in the subject. *)
Definition produced_by (lower : string -> string) (before : registry)
    (c : command) (user_id : Z) (subject_name : string)
    (cache : lecture_cache) : Prop :=
  match c with
  | LatestLec ctx name env =>
      is_dm ctx = true /\ author_id ctx = user_id /\
      lower name = subject_name /\
      exists subj pid v rest d,
        get_subject before user_id subject_name = Some subj /\
        playlist_id subj = Some pid /\
        playlist_items env pid = inr (v :: rest) /\
        c_title cache = snippet_title v /\
        fetch env (videoId v) = inr d /\
        normalize d = inr (c_transcript cache) /\
        chat_completion env
          (build_prompt (c_title cache) (c_transcript cache))
        = inr (c_summary cache) /\
        calls (exec lower c before)
        = [YoutubeList pid; TranscriptFetch (videoId v);
           ChatCompletion (build_prompt (c_title cache) (c_transcript cache))] /\
        terminal (exec lower c before)
        = Some (SummaryEmbed (c_title cache) (c_summary cache)
                  (watch_url (videoId v)) subject_name) /\
        get_subject (data (exec lower c before)) user_id subject_name
        = Some (Subject (Some pid) (Some cache))
  | _ => False
  end.

(** The [ctx.send] a reply comes from, numbered in source order (the two
    DM notices of [set_playlist] and [latest_lecture_summary] have the
    same text and share a number). *)
Definition reply_kind (r : reply) : nat :=
  match r with
  | DmOnlyPrivate => 0
  | AlreadyTracking _ => 1
  | SubjectAdded _ => 2
  | DmOnly => 3
  | SubjectMissing _ => 4
  | PlaylistLocked _ => 5
  | InvalidPlaylistUrl => 6
  | NotSetUp _ => 7
  | OnIt => 8
  | PlaylistEmpty => 9
  | FoundIt _ => 10
  | TranscriptError _ _ => 11
  | TranscriptAcquired => 12
  | SummaryEmbed _ _ _ _ => 13
  | Whoops _ => 14
  end%nat.

(** The services with every playlist answer cut down to its first item. *)
Definition first_item_only (env : services) : services :=
  Services
    (fun pid =>
       match playlist_items env pid with
       | inr (v :: _) => inr [v]
       | other => other
       end)
    (fetch env) (chat_completion env).

(** ** Concrete scenarios *)

Module Scenario.

Definition lower := Str.ascii_lower.

Definition alice : context := Context true 42.
Definition alice_in_guild : context := Context false 42.

Definition playlist_url : string :=
  "https://youtube.com/playlist?list=PLabc".

Definition registered : registry :=
  session lower [AddSubject alice "CS101"].

Definition linked : registry :=
  session lower [AddSubject alice "CS101";
                 SetPlaylist alice "cs101" playlist_url].

Definition lec1 : snippet := Snippet "v1" "Lec 1".

Definition shape_a : transcript_data :=
  TranscriptData
    (Some (Seq [DictItem (Some (PyStr "hello"));
                ObjItem "Snippet" (Some (PyStr "world"))]))
    None (NotIterable "Response").

Definition shape_b : transcript_data :=
  TranscriptData None
    (Some (Seq [DictItem (Some (PyStr "a")); DictItem (Some (PyStr "b"))]))
    (NotIterable "Response").

Definition shape_c : transcript_data :=
  TranscriptData None None
    (Seq [ObjItem "FetchedTranscriptSnippet" (Some (PyStr "x"));
          ObjItem "FetchedTranscriptSnippet" (Some (PyStr "y"));
          ObjItem "FetchedTranscriptSnippet" (Some (PyStr "z"))]).

(** A [transcript] attribute that is there but is [None], beside a good
    [captions] attribute. *)
Definition shape_a_unusable : transcript_data :=
  TranscriptData
    (Some (NotIterable "NoneType"))
    (Some (Seq [DictItem (Some (PyStr "a")); DictItem (Some (PyStr "b"))]))
    (NotIterable "Response").

(** An entry whose text is a number. *)
Definition shape_non_str : transcript_data :=
  TranscriptData None None
    (Seq [DictItem (Some (PyStr "a")); DictItem (Some (PyOther "int"))]).

Definition healthy : services :=
  Services (fun _ => inr [lec1])
           (fun _ => inr shape_a)
           (fun _ => inr ("- point one" +:+ Str.nl +:+ "- point two")).

Definition empty_playlist : services :=
  Services (fun _ => inr []) (fun _ => inr shape_a) (fun _ => inr "- point").

Definition timed_out : exception := Exc "TimeoutError" "timed out".
Definition api_timed_out : exception := Exc "APITimeoutError" "timed out".
Definition transcripts_disabled : exception :=
  Exc "TranscriptsDisabled" "Subtitles are disabled for this video".

Definition lookup_down : services :=
  Services (fun _ => inl timed_out) (fun _ => inr shape_a)
           (fun _ => inr "- point").

Definition captions_off : services :=
  Services (fun _ => inr [lec1]) (fun _ => inl transcripts_disabled)
           (fun _ => inr "- point").

Definition summarizer_down : services :=
  Services (fun _ => inr [lec1]) (fun _ => inr shape_a)
           (fun _ => inl api_timed_out).

(** The completion comes back with an empty [content]. *)
Definition summarizer_silent : services :=
  Services (fun _ => inr [lec1]) (fun _ => inr shape_a) (fun _ => inr "").

Definition summarized : registry :=
  session lower [AddSubject alice "CS101";
                 SetPlaylist alice "cs101" playlist_url;
                 LatestLec alice "cs101" healthy].

Definition silent_session : list command :=
  [AddSubject alice "CS101";
   SetPlaylist alice "cs101" playlist_url;
   LatestLec alice "cs101" summarizer_silent].

End Scenario.

(** * Properties *)

(** ** [extract_playlist_id] on the examples of the documentation *)

Example extract_url :
  extract_playlist_id "https://youtube.com/playlist?list=PL123abc_-XYZ"
  = Some "PL123abc_-XYZ".
Proof. reflexivity. Qed.

Example extract_stops_at_ampersand :
  extract_playlist_id "https://www.youtube.com/watch?v=abc&list=PLx9&index=2"
  = Some "PLx9".
Proof. reflexivity. Qed.

Example extract_skips_empty_token :
  extract_playlist_id "list=&list=ab" = Some "ab".
Proof. reflexivity. Qed.

(** ** Registry lookups *)

Lemma get_subject_None user_data user_id subject_name :
  get_subject user_data user_id subject_name = None <->
  user_data !! user_id = None \/
  exists user_profile : profile,
    user_data !! user_id = Some user_profile /\
    user_profile !! subject_name = None.
Proof.
  unfold get_subject. destruct (user_data !! user_id) as [p|]; split.
  - intros H. right. by exists p.
  - intros [H | (p' & H & Hp)]; [done | by simplify_eq].
  - by left.
  - done.
Qed.

Lemma configured_spec user_data user_id subject_name :
  configured user_data user_id subject_name =
  match user_data !! user_id with
  | None => None
  | Some user_profile =>
      match get_subject user_data user_id subject_name with
      | None => None
      | Some subj =>
          match playlist_id subj with
          | None => None
          | Some pid => Some (user_profile, subj, pid)
          end
      end
  end.
Proof.
  unfold configured, get_subject. by destruct (user_data !! user_id).
Qed.

Lemma configured_None user_data user_id subject_name :
  configured user_data user_id subject_name = None <->
  get_subject user_data user_id subject_name = None \/
  exists subj, get_subject user_data user_id subject_name = Some subj /\
               playlist_id subj = None.
Proof.
  rewrite configured_spec. unfold get_subject.
  destruct (user_data !! user_id) as [p|]; [|by split; [left|]].
  destruct (p !! subject_name) as [subj|]; [|by split; [left|]].
  destruct (playlist_id subj) as [pid|] eqn:Hp; split; try done.
  - intros [H | (s & H & Hs)]; [done | by simplify_eq].
  - intros _. right. by exists subj.
Qed.

Lemma configured_Some user_data user_id subject_name user_profile subj pid :
  configured user_data user_id subject_name = Some (user_profile, subj, pid) <->
  user_data !! user_id = Some user_profile /\
  user_profile !! subject_name = Some subj /\
  playlist_id subj = Some pid.
Proof.
  unfold configured.
  destruct (user_data !! user_id) as [p|];
    [|split; [done | by intros (? & _)]].
  destruct (p !! subject_name) as [s|] eqn:Hs;
    [|split; [done | intros (? & ? & _); by simplify_eq]].
  destruct (playlist_id s) as [q|] eqn:Hq; split.
  - intros ?; by simplify_eq.
  - intros (? & ? & ?); by simplify_eq.
  - done.
  - intros (? & ? & ?); simplify_eq.
Qed.


(** ** The commands one by one *)

Section CommandProperties.

Variable lower : string -> string.

Implicit Types (ctx : context) (user_data : registry) (env : services).

(** A command either leaves the registry alone or was sent in a DM. *)
Lemma exec_outside_dm c user_data :
  is_dm (command_ctx c) = false ->
  exec lower c user_data = Result user_data [] [dm_notice c].
Proof.
  intros Hdm. destruct c as [ctx s | ctx s url | ctx s env]; simpl in *.
  - unfold add_subject. by rewrite Hdm.
  - unfold set_playlist. by rewrite Hdm.
  - unfold latest_lecture_summary. by rewrite Hdm.
Qed.

(** C10.  Outside a direct-message channel each of the three commands
    sends its notice and stops: the registry it returns is the registry
    it was given and its call log is empty, whatever its arguments; hence
    a command that changes the registry or calls a service was invoked
    in a DM. *)
Theorem commands_outside_dm ctx subject_name playlist_url env user_data :
  is_dm ctx = false ->
  add_subject lower ctx subject_name user_data
    = Result user_data [] [DmOnlyPrivate] /\
  set_playlist lower ctx subject_name playlist_url user_data
    = Result user_data [] [DmOnly] /\
  latest_lecture_summary lower ctx subject_name env user_data
    = Result user_data [] [DmOnly] /\
  (forall c user_data',
     data (exec lower c user_data') <> user_data' \/
     calls (exec lower c user_data') <> [] ->
     is_dm (command_ctx c) = true).
Proof.
  intros Hdm. repeat split.
  - apply (exec_outside_dm (AddSubject ctx subject_name) _ Hdm).
  - apply (exec_outside_dm (SetPlaylist ctx subject_name playlist_url) _ Hdm).
  - apply (exec_outside_dm (LatestLec ctx subject_name env) _ Hdm).
  - intros c reg Hchg. destruct (is_dm (command_ctx c)) eqn:Hc; [done|].
    rewrite (exec_outside_dm c reg Hc) in Hchg. simpl in Hchg.
    by destruct Hchg.
Qed.

(** An existing subject makes [!addsubject] a no-op. *)
Lemma add_subject_existing ctx subject_name user_data subj :
  is_dm ctx = true ->
  get_subject user_data (author_id ctx) (lower subject_name) = Some subj ->
  add_subject lower ctx subject_name user_data
    = Result user_data [] [AlreadyTracking (lower subject_name)].
Proof.
  intros Hdm Hsub. unfold get_subject in Hsub.
  unfold add_subject. rewrite Hdm. simpl.
  destruct (user_data !! author_id ctx) as [p|] eqn:Hp; [|done].
  rewrite Hp. simpl. by rewrite Hsub.
Qed.

(** C7.  When the user already has a subject under the lowered name,
    [!addsubject] answers that it is already tracked and returns the
    registry it was given: the subject's playlist id and cached lecture,
    and every other entry, are as before. *)
Theorem add_subject_already_exists ctx subject_name user_data subj :
  is_dm ctx = true ->
  get_subject user_data (author_id ctx) (lower subject_name) = Some subj ->
  add_subject lower ctx subject_name user_data
    = Result user_data [] [AlreadyTracking (lower subject_name)] /\
  get_subject (data (add_subject lower ctx subject_name user_data))
              (author_id ctx) (lower subject_name) = Some subj.
Proof.
  intros Hdm Hsub.
  rewrite (add_subject_existing ctx subject_name user_data subj Hdm Hsub).
  by split.
Qed.

(** After a first [!addsubject] the subject exists, whatever the registry
    was. *)
Lemma add_subject_registers ctx subject_name user_data :
  is_dm ctx = true ->
  is_Some (get_subject (data (add_subject lower ctx subject_name user_data))
                       (author_id ctx) (lower subject_name)).
Proof.
  intros Hdm. unfold add_subject. rewrite Hdm. simpl.
  destruct (user_data !! author_id ctx) as [p|] eqn:Hp.
  - rewrite Hp. simpl.
    destruct (p !! lower subject_name) as [s|] eqn:Hs; simpl.
    + unfold get_subject. rewrite Hp, Hs. by eexists.
    + unfold get_subject. rewrite lookup_insert_eq, lookup_insert_eq.
      by eexists.
  - rewrite lookup_insert_eq. simpl. rewrite lookup_empty. simpl.
    unfold get_subject. rewrite lookup_insert_eq, lookup_insert_eq.
    by eexists.
Qed.

(** X17.  Registering twice: whatever the registry was, after a first
    [!addsubject] a second one, under any spelling that lowers to the same
    name, answers that the subject is already tracked and changes
    nothing. *)
Lemma add_subject_twice ctx subject_name subject_name' user_data :
  is_dm ctx = true ->
  lower subject_name' = lower subject_name ->
  let once := data (add_subject lower ctx subject_name user_data) in
  add_subject lower ctx subject_name' once
    = Result once [] [AlreadyTracking (lower subject_name)].
Proof.
  intros Hdm Hlow once.
  destruct (add_subject_registers ctx subject_name user_data Hdm)
    as [subj Hsubj].
  fold once in Hsubj. rewrite <- Hlow in Hsubj.
  rewrite (add_subject_existing ctx subject_name' once subj Hdm Hsubj).
  by rewrite Hlow.
Qed.

(** C8.  For a (user, subject) pair that is not in the registry,
    [!setplaylist] answers that it cannot find the subject and returns
    the registry it was given; in particular the pair is still not in
    it afterwards.  Outside a DM the answer is the DM notice and the
    registry is equally untouched. *)
Theorem set_playlist_subject_not_found ctx subject_name playlist_url user_data :
  get_subject user_data (author_id ctx) (lower subject_name) = None ->
  set_playlist lower ctx subject_name playlist_url user_data
    = Result user_data []
        [if is_dm ctx then SubjectMissing (lower subject_name) else DmOnly] /\
  get_subject (data (set_playlist lower ctx subject_name playlist_url user_data))
              (author_id ctx) (lower subject_name) = None.
Proof.
  intros Hnone.
  assert (set_playlist lower ctx subject_name playlist_url user_data
          = Result user_data []
              [if is_dm ctx then SubjectMissing (lower subject_name)
               else DmOnly]) as ->.
  { unfold set_playlist, get_subject in *.
    destruct (is_dm ctx); simpl; [|done].
    destruct (user_data !! author_id ctx) as [p|]; [|done].
    by rewrite Hnone. }
  by split.
Qed.

(** The run of [!latestlec] stops at the set-up check exactly when the
    subject is missing or unlinked. *)
Lemma latest_unconfigured ctx subject_name env user_data :
  is_dm ctx = true ->
  configured user_data (author_id ctx) (lower subject_name) = None ->
  latest_lecture_summary lower ctx subject_name env user_data
    = Result user_data [] [NotSetUp (lower subject_name)].
Proof.
  intros Hdm Hc. unfold latest_lecture_summary. rewrite Hdm. simpl.
  by rewrite Hc.
Qed.

(** C5.  For a subject that is unregistered, or registered with no
    playlist id, [!latestlec] stops at the set-up check: its only reply
    is the not-set-up message, its call log is empty and the registry is
    the one it was given. *)
Theorem latest_not_configured ctx subject_name env user_data :
  is_dm ctx = true ->
  (get_subject user_data (author_id ctx) (lower subject_name) = None \/
   exists subj,
     get_subject user_data (author_id ctx) (lower subject_name) = Some subj /\
     playlist_id subj = None) ->
  latest_lecture_summary lower ctx subject_name env user_data
    = Result user_data [] [NotSetUp (lower subject_name)].
Proof.
  intros Hdm Hun. apply latest_unconfigured; [done|].
  by apply configured_None.
Qed.

(** The run on a linked subject, by the answers of the services. *)
Lemma latest_configured ctx subject_name env user_data user_profile subj pid :
  is_dm ctx = true ->
  configured user_data (author_id ctx) (lower subject_name)
    = Some (user_profile, subj, pid) ->
  latest_lecture_summary lower ctx subject_name env user_data =
  match playlist_items env pid with
  | inl e => Result user_data [YoutubeList pid] [OnIt; Whoops e]
  | inr [] => Result user_data [YoutubeList pid] [OnIt; PlaylistEmpty]
  | inr (v :: _) =>
      match resolve_transcript env (videoId v) with
      | inl e =>
          Result user_data [YoutubeList pid; TranscriptFetch (videoId v)]
            [OnIt; FoundIt (snippet_title v);
             TranscriptError e (watch_url (videoId v))]
      | inr t =>
          let prompt := build_prompt (snippet_title v) t in
          match chat_completion env prompt with
          | inl e =>
              Result user_data
                [YoutubeList pid; TranscriptFetch (videoId v);
                 ChatCompletion prompt]
                [OnIt; FoundIt (snippet_title v); TranscriptAcquired; Whoops e]
          | inr s =>
              Result (<[author_id ctx :=
                          <[lower subject_name :=
                              Subject (playlist_id subj)
                                (Some (LectureCache t s (snippet_title v)))]>
                            user_profile]> user_data)
                [YoutubeList pid; TranscriptFetch (videoId v);
                 ChatCompletion prompt]
                [OnIt; FoundIt (snippet_title v); TranscriptAcquired;
                 SummaryEmbed (snippet_title v) s (watch_url (videoId v))
                   (lower subject_name)]
          end
      end
  end.
Proof.
  intros Hdm Hc. unfold latest_lecture_summary. rewrite Hdm. simpl.
  by rewrite Hc.
Qed.

(** C9.  When the hosting service answers with an empty item list, the
    run ends with the playlist-is-empty reply; the only call made is the
    playlist lookup, so neither the transcript service nor the
    summarization service is called; and the registry, with the subject's
    cached lecture, is the one the run was given. *)
Theorem latest_playlist_empty ctx subject_name env user_data subj pid :
  is_dm ctx = true ->
  get_subject user_data (author_id ctx) (lower subject_name) = Some subj ->
  playlist_id subj = Some pid ->
  playlist_items env pid = inr [] ->
  let r := latest_lecture_summary lower ctx subject_name env user_data in
  r = Result user_data [YoutubeList pid] [OnIt; PlaylistEmpty] /\
  terminal r = Some PlaylistEmpty /\
  List.filter (fun c => is_transcript_fetch c || is_chat_completion c) (calls r)
    = [] /\
  get_subject (data r) (author_id ctx) (lower subject_name) = Some subj.
Proof.
  intros Hdm Hsub Hpid Hitems r.
  assert (r = Result user_data [YoutubeList pid] [OnIt; PlaylistEmpty]) as ->.
  { unfold get_subject in Hsub.
    destruct (user_data !! author_id ctx) as [p|] eqn:Hp; [|done].
    subst r.
    rewrite (latest_configured ctx subject_name env user_data p subj pid Hdm).
    - by rewrite Hitems.
    - by apply configured_Some. }
  by repeat split.
Qed.


(** C6.  When the transcript stage fails with an exception [e], whatever
    raised it, the run ends with the transcript-error reply: its text
    carries the class name and the message of [e] and the URL of the
    video found before; the registry is untouched; the calls made are the
    playlist lookup and the transcript fetch, so the summarization
    service is not called; and the run returns normally. *)
Theorem latest_transcript_failed ctx subject_name env user_data subj pid v rest e :
  is_dm ctx = true ->
  get_subject user_data (author_id ctx) (lower subject_name) = Some subj ->
  playlist_id subj = Some pid ->
  playlist_items env pid = inr (v :: rest) ->
  resolve_transcript env (videoId v) = inl e ->
  let r := latest_lecture_summary lower ctx subject_name env user_data in
  r = Result user_data [YoutubeList pid; TranscriptFetch (videoId v)]
        [OnIt; FoundIt (snippet_title v);
         TranscriptError e (watch_url (videoId v))] /\
  (render <$> terminal r) =
    Some (Text ("Bummer, I couldn't get a transcript for this video. Error: "
                +:+ exc_type e +:+ ": " +:+ exc_str e +:+ Str.nl +:+ Str.nl
                +:+ "Here's the link anyway: "
                +:+ "https://www.youtube.com/watch?v=" +:+ videoId v)) /\
  List.filter is_chat_completion (calls r) = [].
Proof.
  intros Hdm Hsub Hpid Hitems He r.
  assert (r = Result user_data [YoutubeList pid; TranscriptFetch (videoId v)]
                [OnIt; FoundIt (snippet_title v);
                 TranscriptError e (watch_url (videoId v))]) as ->.
  { unfold get_subject in Hsub.
    destruct (user_data !! author_id ctx) as [p|] eqn:Hp; [|done].
    subst r.
    rewrite (latest_configured ctx subject_name env user_data p subj pid Hdm).
    - by rewrite Hitems, He.
    - by apply configured_Some. }
  by repeat split.
Qed.

(** The replies of the three failure kinds read differently. *)
Lemma render_failures_distinct e url e' :
  render (TranscriptError e url) <> render (Whoops e') /\
  render PlaylistEmpty <> render (Whoops e') /\
  render PlaylistEmpty <> render (TranscriptError e url).
Proof. repeat split; simpl; intros [=]. Qed.

(** C1, as the code has it.  On a linked subject, an empty playlist and a
    failed transcript stage end the run with replies of their own (the
    latter with the exception's class name, message and the video URL).
    A failed playlist lookup and a failed summarization call both end it
    with the same catch-all reply, which carries the message of the
    exception and nothing else; the two runs differ only in the progress
    replies sent before it. *)
Theorem latest_failure_outcomes ctx subject_name env user_data subj pid :
  is_dm ctx = true ->
  get_subject user_data (author_id ctx) (lower subject_name) = Some subj ->
  playlist_id subj = Some pid ->
  let r := latest_lecture_summary lower ctx subject_name env user_data in
  (forall e, playlist_items env pid = inl e ->
     sent r = [OnIt; Whoops e]) /\
  (playlist_items env pid = inr [] ->
     sent r = [OnIt; PlaylistEmpty]) /\
  (forall v rest e,
     playlist_items env pid = inr (v :: rest) ->
     resolve_transcript env (videoId v) = inl e ->
     sent r = [OnIt; FoundIt (snippet_title v);
               TranscriptError e (watch_url (videoId v))]) /\
  (forall v rest t e,
     playlist_items env pid = inr (v :: rest) ->
     resolve_transcript env (videoId v) = inr t ->
     chat_completion env (build_prompt (snippet_title v) t) = inl e ->
     sent r = [OnIt; FoundIt (snippet_title v); TranscriptAcquired; Whoops e]) /\
  (forall e, render (Whoops e) =
     Text ("Whoops, something went wrong on my end. Maybe check the YouTube API key or Playlist ID? Error: "
           +:+ exc_str e)) /\
  (forall e url e',
     render (TranscriptError e url) <> render (Whoops e') /\
     render PlaylistEmpty <> render (Whoops e') /\
     render PlaylistEmpty <> render (TranscriptError e url)).
Proof.
  intros Hdm Hsub Hpid r.
  unfold get_subject in Hsub.
  destruct (user_data !! author_id ctx) as [p|] eqn:Hp; [|done].
  assert (configured user_data (author_id ctx) (lower subject_name)
          = Some (p, subj, pid)) as Hc by by apply configured_Some.
  subst r.
  rewrite (latest_configured ctx subject_name env user_data p subj pid Hdm Hc).
  repeat apply conj.
  - by intros e ->.
  - by intros ->.
  - by intros v rest e -> ->.
  - intros v rest t e -> ->. simpl. by intros ->.
  - done.
  - apply render_failures_distinct.
Qed.

End CommandProperties.

(** ** The transcript fallback chain *)

Lemma texts_text_bearing items vals :
  map caption_text items = map Some vals -> texts items = inr vals.
Proof.
  revert vals. induction items as [|item items IH]; intros [|t vals] Hmap;
    simpl in *; try done.
  injection Hmap as Hitem Hrest.
  rewrite (IH vals Hrest).
  destruct item as [[u|] | cls [u|]]; simpl in *; by simplify_eq.
Qed.

Lemma strs_from_strs i ts : strs_from i (map PyStr ts) = inr ts.
Proof.
  revert i. induction ts as [|t ts IH]; intros i; simpl; [done|].
  by rewrite IH.
Qed.

Lemma join_texts_strs items ts :
  str_texts items ts -> join_texts (Seq items) = inr (Str.join " " ts).
Proof.
  unfold str_texts. intros Hts. unfold join_texts. simpl.
  rewrite (texts_text_bearing items (map PyStr ts))
    by (by rewrite Hts, map_map).
  unfold py_join. by rewrite strs_from_strs.
Qed.

Lemma normalize_chosen d items ts :
  transcript_list d = Seq items ->
  str_texts items ts ->
  normalize d = inr (Str.join " " ts).
Proof.
  intros Hl Hts. unfold normalize. rewrite Hl. by apply join_texts_strs.
Qed.

(** A shape that is present but unusable is not passed over: the run of
    the chain stops at the first attribute that exists. *)
Lemma normalize_no_second_look d cls :
  attr_transcript d = Some (NotIterable cls) ->
  normalize d = inl (Exc "TypeError" ("'" +:+ cls +:+ "' object is not iterable")).
Proof. intros H. unfold normalize, transcript_list. by rewrite H. Qed.

(** C4, as the code has it.  The transcript stage looks for a
    [transcript] attribute, else for a [captions] attribute, else
    iterates the response itself, and reads only the first of these that
    is there: its result is the result of joining the texts of that one
    value, whatever the other shapes hold, so nothing is merged and a
    value that is there but cannot be used (one that cannot be iterated,
    say) makes the stage fail without a look at the later shapes.  When
    the entries of the value read all bear a [str] text, as dicts or as
    objects, the result is these texts in their order, joined by single
    spaces. *)
Theorem resolve_transcript_shapes env video_id d :
  fetch env video_id = inr d ->
  (forall v, attr_transcript d = Some v ->
     resolve_transcript env video_id = join_texts v) /\
  (forall v, attr_transcript d = None -> attr_captions d = Some v ->
     resolve_transcript env video_id = join_texts v) /\
  (attr_transcript d = None -> attr_captions d = None ->
     resolve_transcript env video_id = join_texts (iteration d)) /\
  (forall items ts, str_texts items ts ->
     join_texts (Seq items) = inr (Str.join " " ts)) /\
  (forall cls,
     join_texts (NotIterable cls)
     = inl (Exc "TypeError" ("'" +:+ cls +:+ "' object is not iterable"))).
Proof.
  intros Hf. unfold resolve_transcript, normalize, transcript_list.
  rewrite Hf. repeat split.
  - by intros v ->.
  - by intros v -> ->.
  - by intros -> ->.
  - apply join_texts_strs.
Qed.

(** C4 as stated fails where the first shape is there but unusable: the
    [captions] of this response alone would give the text, yet the stage
    raises on its [transcript] attribute. *)
Lemma present_but_unusable_shape_fails :
  attr_transcript Scenario.shape_a_unusable = Some (NotIterable "NoneType") /\
  (exists v, attr_captions Scenario.shape_a_unusable = Some v /\
             join_texts v = inr "a b") /\
  normalize Scenario.shape_a_unusable
    = inl (Exc "TypeError" "'NoneType' object is not iterable").
Proof. split; [done|]. split; [by eexists|done]. Qed.

Example normalize_shape_a : normalize Scenario.shape_a = inr "hello world".
Proof. reflexivity. Qed.

Example normalize_shape_b : normalize Scenario.shape_b = inr "a b".
Proof. reflexivity. Qed.

Example normalize_shape_c : normalize Scenario.shape_c = inr "x y z".
Proof. reflexivity. Qed.

Example normalize_unrecognized :
  normalize (TranscriptData None None (NotIterable "Response"))
  = inl (Exc "TypeError" "'Response' object is not iterable").
Proof. reflexivity. Qed.

Example normalize_non_str_text :
  normalize Scenario.shape_non_str
  = inl (Exc "TypeError" "sequence item 1: expected str instance, int found").
Proof. reflexivity. Qed.

(** ** [extract_playlist_id] *)

Lemma app_cons c (s t : string) : String c s +:+ t = String c (s +:+ t).
Proof. reflexivity. Qed.

Lemma app_assoc_str (s t u : string) : (s +:+ t) +:+ u = s +:+ (t +:+ u).
Proof.
  induction s as [|c s IH]; [done|]. by rewrite !app_cons, IH.
Qed.

Lemma len_app (s t : string) : Str.len (s +:+ t) = (Str.len s + Str.len t)%nat.
Proof.
  induction s as [|c s IH]; [done|]. rewrite ?app_cons; simpl. by rewrite IH.
Qed.

Lemma eqb_char_eq a b : Str.eqb_char a b = true -> a = b.
Proof.
  unfold Str.eqb_char, Str.code. intros H%N.eqb_eq.
  rewrite <- (Stdlib.Strings.Ascii.ascii_N_embedding a),
          <- (Stdlib.Strings.Ascii.ascii_N_embedding b).
  by rewrite H.
Qed.

(** Only the first [len p] characters matter to [starts_with p]. *)
Lemma starts_with_app p a b :
  (Str.len p <= Str.len a)%nat ->
  Str.starts_with p (a +:+ b) = Str.starts_with p a.
Proof.
  revert a. induction p as [|c p IH]; intros [|c' a] Hlen; simpl in *;
    try done; try lia.
  rewrite ?app_cons. simpl. rewrite IH; [done | lia].
Qed.

Lemma starts_with_split p s :
  Str.starts_with p s = true -> exists rest, s = p +:+ rest.
Proof.
  revert s. induction p as [|c p IH]; intros s H; simpl in *.
  - by exists s.
  - destruct s as [|c' s]; [done|].
    apply andb_prop in H as [Hc Hs].
    apply eqb_char_eq in Hc as <-.
    destruct (IH s Hs) as [rest ->]. by exists rest.
Qed.

Lemma take_while_app p tok rest :
  Str.all_chars p tok = true -> Str.stops p rest = true ->
  Str.take_while p (tok +:+ rest) = tok.
Proof.
  intros Htok Hrest. induction tok as [|c tok IH]; simpl in *.
  - change ("" +:+ rest) with rest.
    destruct rest as [|c rest]; [done|]. simpl in *.
    by destruct (p c).
  - apply andb_prop in Htok as [Hc Htok]. rewrite ?app_cons; simpl.
    by rewrite Hc, IH.
Qed.

(** One unfolding of the search. *)
Lemma extract_playlist_id_eq url :
  extract_playlist_id url =
  if Str.starts_with "list=" url &&
     negb (Str.is_empty (Str.take_while id_char (Str.drop 5 url)))
  then Some (Str.take_while id_char (Str.drop 5 url))
  else match url with
       | EmptyString => None
       | String _ rest => extract_playlist_id rest
       end.
Proof.
  destruct url as [|c url]; [done|].
  cbn [extract_playlist_id].
  destruct (Str.starts_with "list=" (String c url)); [|done].
  cbn [andb].
  by destruct (Str.is_empty (Str.take_while id_char (Str.drop 5 (String c url)))).
Qed.

(** A marker followed by a token, at the very start. *)
Lemma extract_at_marker tok rest :
  Str.is_empty tok = false -> Str.all_chars id_char tok = true ->
  Str.stops id_char rest = true ->
  extract_playlist_id ("list=" +:+ tok +:+ rest) = Some tok.
Proof.
  intros Hne Htok Hrest. rewrite extract_playlist_id_eq.
  change ("list=" +:+ tok +:+ rest) with
    (String "l" (String "i" (String "s" (String "t" (String "="
       (tok +:+ rest)))))).
  change (Str.starts_with "list=" _) with true.
  change (Str.drop 5 _) with (tok +:+ rest).
  rewrite (take_while_app id_char tok rest Htok Hrest).
  by rewrite Hne.
Qed.

(** Nothing is found before the first marker. *)
Lemma extract_skip pre tail :
  Str.contains "list=" (pre +:+ "list") = false ->
  extract_playlist_id (pre +:+ "list=" +:+ tail)
  = extract_playlist_id ("list=" +:+ tail).
Proof.
  induction pre as [|c pre IH]; intros Hno; [done|].
  rewrite ?app_cons in Hno; simpl in Hno.
  apply orb_false_elim in Hno as [Hhere Hlater].
  rewrite extract_playlist_id_eq.
  assert (Str.starts_with "list=" (String c pre +:+ "list=" +:+ tail) = false)
    as ->.
  { change ("list=" +:+ tail) with ("list" +:+ ("=" +:+ tail)).
    rewrite <- app_assoc_str.
    rewrite starts_with_app; [by rewrite ?app_cons|].
    rewrite len_app. simpl. lia. }
  rewrite ?app_cons; simpl. by apply IH.
Qed.

Lemma extract_no_marker url :
  Str.contains "list=" url = false -> extract_playlist_id url = None.
Proof.
  induction url as [|c url IH]; intros Hno; [done|].
  cbn [Str.contains] in Hno. apply orb_false_elim in Hno as [Hhere Hlater].
  rewrite extract_playlist_id_eq, Hhere. cbn [andb]. by apply IH.
Qed.

(** An identifier-shaped string holds no marker: [=] is not in the class. *)
Lemma identifier_no_marker s :
  Str.all_chars id_char s = true -> Str.contains "list=" s = false.
Proof.
  induction s as [|c s IH]; intros Hall; [done|].
  cbn [Str.contains].
  destruct (Str.starts_with "list=" (String c s)) eqn:Hst.
  - apply starts_with_split in Hst as [rest Hrest].
    rewrite Hrest in Hall. 
    change ("list=" +:+ rest) with
      (String "l" (String "i" (String "s" (String "t" (String "=" rest)))))
      in Hall.
    simpl in Hall. done.
  - simpl in Hall. apply andb_prop in Hall as [_ Hall].
    simpl. by apply IH.
Qed.

(** C2, as the code has it.  [extract_playlist_id] is a function of its
    input alone.  On the documented URL it returns [PL123abc_-XYZ]; in
    general, when the first [list=] marker of the input is followed by a
    non-empty run of letters, digits, underscores and hyphens, it returns
    that whole run; on an input with no [list=] marker it returns
    nothing; and a bare identifier-shaped string has no marker, so it
    returns nothing for it as well. *)
Theorem extract_playlist_id_spec :
  extract_playlist_id "https://youtube.com/playlist?list=PL123abc_-XYZ"
    = Some "PL123abc_-XYZ" /\
  (forall pre tok rest,
     Str.contains "list=" (pre +:+ "list") = false ->
     Str.is_empty tok = false -> Str.all_chars id_char tok = true ->
     Str.stops id_char rest = true ->
     extract_playlist_id (pre +:+ "list=" +:+ tok +:+ rest) = Some tok) /\
  (forall url,
     Str.contains "list=" url = false -> extract_playlist_id url = None) /\
  (forall s, identifier_shaped s -> extract_playlist_id s = None).
Proof.
  repeat split.
  - intros pre tok rest Hpre Hne Htok Hrest.
    rewrite (extract_skip pre (tok +:+ rest) Hpre).
    by apply extract_at_marker.
  - apply extract_no_marker.
  - intros s [_ Hs]. by apply extract_no_marker, identifier_no_marker.
Qed.

(** C2 as stated fails on its third case: a bare identifier is not
    returned unchanged. *)
Lemma extract_bare_identifier :
  identifier_shaped "PL123abc_-XYZ" /\
  extract_playlist_id "PL123abc_-XYZ" <> Some "PL123abc_-XYZ".
Proof. split; [by split | by intros [=]]. Qed.

(** ** The cache over a session *)

Section CacheProvenance.

Variable lower : string -> string.

Local Arguments get_subject : simpl never.

Lemma get_subject_insert (user_data : registry) uid (prof : profile) name subj
    u s :
  get_subject (<[uid := <[name := subj]> prof]> user_data) u s =
  if decide (u = uid)
  then if decide (s = name) then Some subj else prof !! s
  else get_subject user_data u s.
Proof.
  unfold get_subject. destruct (decide (u = uid)) as [->|Hu].
  - rewrite lookup_insert_eq.
    destruct (decide (s = name)) as [->|Hs].
    + by rewrite lookup_insert_eq.
    + by rewrite lookup_insert_ne.
  - by rewrite lookup_insert_ne.
Qed.

Lemma get_subject_insert_empty (user_data : registry) uid u s :
  user_data !! uid = None ->
  get_subject (<[uid := ∅]> user_data) u s = get_subject user_data u s.
Proof.
  intros Hnone. unfold get_subject. destruct (decide (u = uid)) as [->|Hu].
  - by rewrite lookup_insert_eq, Hnone, lookup_empty.
  - by rewrite lookup_insert_ne.
Qed.

(** [!addsubject] creates no cached lecture. *)
Lemma add_subject_cache ctx name user_data u s subj cache :
  get_subject (data (add_subject lower ctx name user_data)) u s = Some subj ->
  cached_lecture subj = Some cache ->
  exists subj', get_subject user_data u s = Some subj' /\
                cached_lecture subj' = Some cache.
Proof.
  unfold add_subject. destruct (is_dm ctx); simpl; [|by eauto].
  destruct (user_data !! author_id ctx) as [p|] eqn:Hp.
  - rewrite Hp. simpl.
    destruct (p !! lower name) as [s0|] eqn:Hs0; simpl; [by eauto|].
    rewrite (get_subject_insert user_data (author_id ctx) p (lower name)
               (Subject None None) u s).
    destruct (decide (u = author_id ctx)) as [->|Hu]; [|by eauto].
    destruct (decide (s = lower name)) as [->|Hs].
    + intros [= <-]. done.
    + intros Hl Hc. exists subj. unfold get_subject. by rewrite Hp.
  - rewrite lookup_insert_eq. simpl. rewrite lookup_empty. cbn [data].
    rewrite (get_subject_insert (<[author_id ctx := ∅]> user_data)
               (author_id ctx) ∅ (lower name) (Subject None None) u s).
    destruct (decide (u = author_id ctx)) as [->|Hu].
    + destruct (decide (s = lower name)) as [->|Hs].
      * intros [= <-]. done.
      * by rewrite lookup_empty.
    + rewrite get_subject_insert_empty by done. by eauto.
Qed.

(** [!setplaylist] keeps every cached lecture. *)
Lemma set_playlist_cache ctx name url user_data u s subj cache :
  get_subject (data (set_playlist lower ctx name url user_data)) u s
    = Some subj ->
  cached_lecture subj = Some cache ->
  exists subj', get_subject user_data u s = Some subj' /\
                cached_lecture subj' = Some cache.
Proof.
  unfold set_playlist. destruct (is_dm ctx); simpl; [|by eauto].
  destruct (user_data !! author_id ctx) as [p|] eqn:Hp; [|by eauto].
  destruct (p !! lower name) as [s0|] eqn:Hs0; [|by eauto].
  destruct (extract_playlist_id url) as [pid|]; [|by eauto].
  destruct (Str.is_empty pid); simpl; [by eauto|].
  rewrite (get_subject_insert user_data (author_id ctx) p (lower name)
             (Subject (Some pid) (cached_lecture s0)) u s).
  destruct (decide (u = author_id ctx)) as [->|Hu]; [|by eauto].
  destruct (decide (s = lower name)) as [->|Hs].
  - intros [= <-]. simpl. intros Hc. exists s0.
    unfold get_subject. by rewrite Hp, Hs0.
  - intros Hl Hc. exists subj. unfold get_subject. by rewrite Hp.
Qed.

Lemma session_snoc cs c :
  session lower (cs ++ [c]) = data (exec lower c (session lower cs)).
Proof. unfold session. by rewrite fold_left_app. Qed.

End CacheProvenance.

(** C3 as stated fails on non-emptiness: a completion with an empty
    content is cached as it comes. *)
Lemma cached_summary_may_be_empty :
  exists subj cache,
    get_subject (session Scenario.lower Scenario.silent_session) 42 "cs101"
      = Some subj /\
    cached_lecture subj = Some cache /\
    c_summary cache = "" /\
    ~ fields_nonempty cache.
Proof.
  exists (Subject (Some "PLabc") (Some (LectureCache "hello world" "" "Lec 1"))),
         (LectureCache "hello world" "" "Lec 1").
  repeat split. intros (_ & _ & H). by apply H.
Qed.

(** C1 as stated fails on the summarization stage: a failed lookup and a
    failed summarization call end in the same catch-all text, in which
    neither the stage nor the class of the exception appears. *)
Lemma lookup_and_summary_failures_collapse :
  let a := latest_lecture_summary Scenario.lower Scenario.alice "cs101"
             Scenario.lookup_down Scenario.linked in
  let b := latest_lecture_summary Scenario.lower Scenario.alice "cs101"
             Scenario.summarizer_down Scenario.linked in
  calls a = [YoutubeList "PLabc"] /\
  last (calls b) =
    Some (ChatCompletion (build_prompt "Lec 1" "hello world")) /\
  terminal a = Some (Whoops Scenario.timed_out) /\
  terminal b = Some (Whoops Scenario.api_timed_out) /\
  (render <$> terminal a) = (render <$> terminal b) /\
  (render <$> terminal b) =
    Some (Text "Whoops, something went wrong on my end. Maybe check the YouTube API key or Playlist ID? Error: timed out").
Proof. repeat split. Qed.

(** ** The documented scenarios *)

Example end_to_end :
  get_subject Scenario.summarized 42 "cs101"
  = Some (Subject (Some "PLabc")
            (Some (LectureCache "hello world"
                     ("- point one" +:+ Str.nl +:+ "- point two") "Lec 1"))).
Proof. reflexivity. Qed.

(** A second run overwrites the cached lecture. *)
Example second_run_overwrites :
  get_subject
    (data (latest_lecture_summary Scenario.lower Scenario.alice "CS101"
             Scenario.summarizer_silent Scenario.summarized)) 42 "cs101"
  = Some (Subject (Some "PLabc")
            (Some (LectureCache "hello world" "" "Lec 1"))).
Proof. reflexivity. Qed.

(** ** Instances *)

Lemma commands_outside_dm_witness :
  is_dm Scenario.alice_in_guild = false /\
  add_subject Scenario.lower Scenario.alice_in_guild "Maths" Scenario.summarized
    = Result Scenario.summarized [] [DmOnlyPrivate] /\
  set_playlist Scenario.lower Scenario.alice_in_guild "CS101"
    Scenario.playlist_url Scenario.registered
    = Result Scenario.registered [] [DmOnly] /\
  latest_lecture_summary Scenario.lower Scenario.alice_in_guild "cs101"
    Scenario.healthy Scenario.linked
    = Result Scenario.linked [] [DmOnly].
Proof.
  split; [reflexivity|]. split; [|split].
  - exact (proj1 (commands_outside_dm Scenario.lower Scenario.alice_in_guild
                    "Maths" Scenario.playlist_url Scenario.healthy
                    Scenario.summarized eq_refl)).
  - exact (proj1 (proj2 (commands_outside_dm Scenario.lower
                    Scenario.alice_in_guild "CS101" Scenario.playlist_url
                    Scenario.healthy Scenario.registered eq_refl))).
  - exact (proj1 (proj2 (proj2 (commands_outside_dm Scenario.lower
                    Scenario.alice_in_guild "cs101" Scenario.playlist_url
                    Scenario.healthy Scenario.linked eq_refl)))).
Defined.

Lemma add_subject_already_exists_witness :
  is_dm Scenario.alice = true /\
  get_subject Scenario.summarized 42 (Scenario.lower "Cs101")
    = Some (Subject (Some "PLabc")
              (Some (LectureCache "hello world"
                       ("- point one" +:+ Str.nl +:+ "- point two") "Lec 1"))) /\
  add_subject Scenario.lower Scenario.alice "Cs101" Scenario.summarized
    = Result Scenario.summarized [] [AlreadyTracking "cs101"].
Proof.
  split; [reflexivity|]. split; [reflexivity|].
  exact (proj1 (add_subject_already_exists Scenario.lower Scenario.alice
                  "Cs101" Scenario.summarized _ eq_refl eq_refl)).
Defined.

Lemma set_playlist_subject_not_found_witness :
  get_subject Scenario.registered 42 (Scenario.lower "Maths") = None /\
  set_playlist Scenario.lower Scenario.alice "Maths" Scenario.playlist_url
    Scenario.registered
    = Result Scenario.registered [] [SubjectMissing "maths"] /\
  get_subject
    (data (set_playlist Scenario.lower Scenario.alice "Maths"
             Scenario.playlist_url Scenario.registered)) 42 "maths" = None.
Proof.
  split; [reflexivity|].
  exact (set_playlist_subject_not_found Scenario.lower Scenario.alice "Maths"
           Scenario.playlist_url Scenario.registered eq_refl).
Defined.

Lemma latest_not_configured_witness :
  is_dm Scenario.alice = true /\
  (exists subj,
     get_subject Scenario.registered 42 (Scenario.lower "CS101") = Some subj /\
     playlist_id subj = None) /\
  latest_lecture_summary Scenario.lower Scenario.alice "CS101"
    Scenario.healthy Scenario.registered
    = Result Scenario.registered [] [NotSetUp "cs101"].
Proof.
  assert (exists subj,
     get_subject Scenario.registered 42 (Scenario.lower "CS101") = Some subj /\
     playlist_id subj = None) as Hun.
  { exists (Subject None None). split; reflexivity. }
  split; [reflexivity|]. split; [exact Hun|].
  exact (latest_not_configured Scenario.lower Scenario.alice "CS101"
           Scenario.healthy Scenario.registered eq_refl (or_intror Hun)).
Defined.

Lemma latest_playlist_empty_witness :
  is_dm Scenario.alice = true /\
  get_subject Scenario.summarized 42 (Scenario.lower "cs101")
    = Some (Subject (Some "PLabc")
              (Some (LectureCache "hello world"
                       ("- point one" +:+ Str.nl +:+ "- point two") "Lec 1"))) /\
  playlist_items Scenario.empty_playlist "PLabc" = inr [] /\
  latest_lecture_summary Scenario.lower Scenario.alice "cs101"
    Scenario.empty_playlist Scenario.summarized
    = Result Scenario.summarized [YoutubeList "PLabc"] [OnIt; PlaylistEmpty].
Proof.
  split; [reflexivity|]. split; [reflexivity|]. split; [reflexivity|].
  exact (proj1 (latest_playlist_empty Scenario.lower Scenario.alice "cs101"
                  Scenario.empty_playlist Scenario.summarized _ "PLabc"
                  eq_refl eq_refl eq_refl eq_refl)).
Defined.

Lemma latest_transcript_failed_witness :
  is_dm Scenario.alice = true /\
  get_subject Scenario.linked 42 (Scenario.lower "cs101")
    = Some (Subject (Some "PLabc") None) /\
  playlist_items Scenario.captions_off "PLabc" = inr [Scenario.lec1] /\
  resolve_transcript Scenario.captions_off "v1"
    = inl Scenario.transcripts_disabled /\
  latest_lecture_summary Scenario.lower Scenario.alice "cs101"
    Scenario.captions_off Scenario.linked
    = Result Scenario.linked [YoutubeList "PLabc"; TranscriptFetch "v1"]
        [OnIt; FoundIt "Lec 1";
         TranscriptError Scenario.transcripts_disabled
           "https://www.youtube.com/watch?v=v1"].
Proof.
  do 4 (split; [reflexivity|]).
  exact (proj1 (latest_transcript_failed Scenario.lower Scenario.alice "cs101"
                  Scenario.captions_off Scenario.linked _ "PLabc"
                  Scenario.lec1 [] Scenario.transcripts_disabled
                  eq_refl eq_refl eq_refl eq_refl eq_refl)).
Defined.

Lemma latest_failure_outcomes_witness :
  is_dm Scenario.alice = true /\
  get_subject Scenario.linked 42 (Scenario.lower "cs101")
    = Some (Subject (Some "PLabc") None) /\
  chat_completion Scenario.summarizer_down (build_prompt "Lec 1" "hello world")
    = inl Scenario.api_timed_out /\
  sent (latest_lecture_summary Scenario.lower Scenario.alice "cs101"
          Scenario.summarizer_down Scenario.linked)
    = [OnIt; FoundIt "Lec 1"; TranscriptAcquired;
       Whoops Scenario.api_timed_out].
Proof.
  do 3 (split; [reflexivity|]).
  exact (proj1 (proj2 (proj2 (proj2
           (latest_failure_outcomes Scenario.lower Scenario.alice "cs101"
              Scenario.summarizer_down Scenario.linked _ "PLabc"
              eq_refl eq_refl eq_refl))))
           Scenario.lec1 [] "hello world" Scenario.api_timed_out
           eq_refl eq_refl eq_refl).
Defined.

Lemma resolve_transcript_shapes_witness :
  fetch Scenario.healthy "v1" = inr Scenario.shape_a /\
  resolve_transcript Scenario.healthy "v1"
    = join_texts (Seq [DictItem (Some (PyStr "hello"));
                       ObjItem "Snippet" (Some (PyStr "world"))]) /\
  str_texts [DictItem (Some (PyStr "hello"));
             ObjItem "Snippet" (Some (PyStr "world"))] ["hello"; "world"] /\
  join_texts (Seq [DictItem (Some (PyStr "hello"));
                   ObjItem "Snippet" (Some (PyStr "world"))])
    = inr "hello world".
Proof.
  split; [reflexivity|]. split.
  { exact (proj1 (resolve_transcript_shapes Scenario.healthy "v1"
                    Scenario.shape_a eq_refl) _ eq_refl). }
  split; [reflexivity|].
  exact (proj1 (proj2 (proj2 (proj2
           (resolve_transcript_shapes Scenario.healthy "v1"
              Scenario.shape_a eq_refl))))
           [DictItem (Some (PyStr "hello"));
            ObjItem "Snippet" (Some (PyStr "world"))]
           ["hello"; "world"] eq_refl).
Defined.

Lemma extract_playlist_id_spec_witness :
  Str.contains "list=" ("https://www.youtube.com/watch?v=abc&" +:+ "list")
    = false /\
  Str.is_empty "PLx9" = false /\ Str.all_chars id_char "PLx9" = true /\
  Str.stops id_char "&index=2" = true /\
  extract_playlist_id
    ("https://www.youtube.com/watch?v=abc&" +:+ "list=" +:+ "PLx9"
     +:+ "&index=2") = Some "PLx9" /\
  Str.contains "list=" "https://youtu.be/dQw4" = false /\
  extract_playlist_id "https://youtu.be/dQw4" = None /\
  identifier_shaped "PLabc" /\
  extract_playlist_id "PLabc" = None.
Proof.
  do 4 (split; [reflexivity|]).
  split.
  { exact (proj1 (proj2 extract_playlist_id_spec)
             "https://www.youtube.com/watch?v=abc&" "PLx9" "&index=2"
             eq_refl eq_refl eq_refl eq_refl). }
  split; [reflexivity|]. split.
  { exact (proj1 (proj2 (proj2 extract_playlist_id_spec))
             "https://youtu.be/dQw4" eq_refl). }
  split; [exact (conj eq_refl eq_refl)|].
  exact (proj2 (proj2 (proj2 extract_playlist_id_spec))
           "PLabc" (conj eq_refl eq_refl)).
Defined.

(** * Further properties of the code *)

(** ** [extract_playlist_id]: what a result looks like *)

Lemma take_while_all p s : Str.all_chars p (Str.take_while p s) = true.
Proof.
  induction s as [|c s IH]; [done|]. simpl.
  destruct (p c) eqn:Hc; [|done]. simpl. by rewrite Hc.
Qed.

Lemma take_while_split p s :
  exists rest, s = Str.take_while p s +:+ rest /\ Str.stops p rest = true.
Proof.
  induction s as [|c s IH].
  - by exists "".
  - simpl. destruct (p c) eqn:Hc.
    + destruct IH as (rest & Hs & Hrest). exists rest.
      split; [|done]. rewrite ?app_cons. by rewrite <- Hs.
    + exists (String c s). split; [done|]. simpl. by rewrite Hc.
Qed.

Lemma extract_Some_shape url tok :
  extract_playlist_id url = Some tok ->
  Str.is_empty tok = false /\ Str.all_chars id_char tok = true /\
  exists pre rest,
    url = pre +:+ "list=" +:+ tok +:+ rest /\ Str.stops id_char rest = true.
Proof.
  induction url as [|c url IH]; rewrite extract_playlist_id_eq.
  - done.
  - destruct (Str.starts_with "list=" (String c url)) eqn:Hst; cbn [andb].
    + destruct (Str.is_empty (Str.take_while id_char (Str.drop 5 (String c url))))
        eqn:Hemp; cbn [negb].
      * intros H. destruct (IH H) as (H1 & H2 & pre & rest & -> & Hrest).
        repeat split; try done. by exists (String c pre), rest.
      * clear IH. intros [= <-]. split; [done|]. split; [apply take_while_all|].
        apply starts_with_split in Hst as [tail Htail].
        change ("list=" +:+ tail) with (String "l" ("ist=" +:+ tail)) in Htail.
        injection Htail as -> ->.
        change (Str.drop 5 (String "l" ("ist=" +:+ tail))) with tail.
        destruct (take_while_split id_char tail) as (rest & Hsplit & Hrest).
        exists "", rest. split; [|done].
        change (String "l" ("ist=" +:+ tail) =
                "list=" +:+ (Str.take_while id_char tail +:+ rest)).
        by rewrite <- Hsplit.
    + intros H. destruct (IH H) as (H1 & H2 & pre & rest & -> & Hrest).
      repeat split; try done. by exists (String c pre), rest.
Qed.

Lemma extract_marker_found pre c rest :
  id_char c = true ->
  is_Some (extract_playlist_id (pre +:+ "list=" +:+ String c rest)).
Proof.
  intros Hc. induction pre as [|a pre IH]; rewrite extract_playlist_id_eq.
  - change ("" +:+ "list=" +:+ String c rest) with
      (String "l" (String "i" (String "s" (String "t" (String "="
         (String c rest)))))).
    change (Str.starts_with "list=" _) with true.
    change (Str.drop 5 _) with (String c rest).
    cbn [Str.take_while]. rewrite Hc. by eexists.
  - destruct (Str.starts_with "list=" _ && _); [by eexists|].
    rewrite ?app_cons. done.
Qed.

(** X1.  Whatever [extract_playlist_id] returns is a non-empty run of
    class characters that stands in the input right after a [list=]
    marker and is not followed by a further class character. *)
Theorem extract_playlist_id_token url tok :
  extract_playlist_id url = Some tok ->
  identifier_shaped tok /\
  exists pre rest,
    url = pre +:+ "list=" +:+ tok +:+ rest /\ Str.stops id_char rest = true.
Proof.
  intros H. destruct (extract_Some_shape url tok H) as (H1 & H2 & H3).
  by repeat split.
Qed.

(** X2.  [extract_playlist_id] returns nothing exactly when no [list=]
    marker of the input is followed by a class character. *)
Theorem extract_playlist_id_none_iff url :
  extract_playlist_id url = None <->
  forall pre c rest,
    url = pre +:+ "list=" +:+ String c rest -> id_char c = false.
Proof.
  split.
  - intros Hnone pre c rest ->.
    destruct (id_char c) eqn:Hc; [|done].
    destruct (extract_marker_found pre c rest Hc) as [tok Htok]. congruence.
  - intros Hno. destruct (extract_playlist_id url) as [tok|] eqn:Hx; [|done].
    destruct (extract_Some_shape url tok Hx)
      as (Hne & Hall & pre & rest & -> & _).
    destruct tok as [|c tok]; [done|]. simpl in Hall.
    apply andb_prop in Hall as [Hc _].
    specialize (Hno pre c (tok +:+ rest)).
    rewrite Hno in Hc; [done|]. by rewrite ?app_cons.
Qed.

(** ** What each command writes *)

Section Effects.

Variable lower : string -> string.

Implicit Types (ctx : context) (user_data : registry) (env : services).

Local Arguments get_subject : simpl never.

(** Writing one entry of an existing profile changes that entry only. *)
Lemma get_subject_update user_data uid (prof : profile) name x u s :
  user_data !! uid = Some prof ->
  get_subject (<[uid := <[name := x]> prof]> user_data) u s =
  if decide (u = uid /\ s = name) then Some x else get_subject user_data u s.
Proof.
  intros Hp. rewrite (get_subject_insert user_data uid prof name x u s).
  destruct (decide (u = uid)) as [->|Hu].
  - destruct (decide (s = name)) as [->|Hs].
    + by rewrite decide_True.
    + rewrite decide_False by (intros [_ ?]; done).
      unfold get_subject. by rewrite Hp.
  - by rewrite decide_False by (intros [? _]; done).
Qed.

Lemma add_subject_effect ctx name user_data :
  is_dm ctx = true ->
  get_subject user_data (author_id ctx) (lower name) = None ->
  let r := add_subject lower ctx name user_data in
  sent r = [SubjectAdded (lower name)] /\
  forall u s,
    get_subject (data r) u s =
    if decide (u = author_id ctx /\ s = lower name)
    then Some (Subject None None)
    else get_subject user_data u s.
Proof.
  intros Hdm Hnone r. subst r. unfold add_subject. rewrite Hdm. simpl.
  unfold get_subject in Hnone.
  destruct (user_data !! author_id ctx) as [p|] eqn:Hp.
  - rewrite Hp. simpl. rewrite Hnone. simpl. split; [done|].
    intros u s. by apply get_subject_update.
  - rewrite lookup_insert_eq. simpl. rewrite lookup_empty. simpl.
    split; [done|]. intros u s.
    rewrite (get_subject_insert (<[author_id ctx := ∅]> user_data)
               (author_id ctx) ∅ (lower name) (Subject None None) u s).
    destruct (decide (u = author_id ctx)) as [->|Hu].
    + destruct (decide (s = lower name)) as [->|Hs].
      * by rewrite decide_True.
      * rewrite decide_False by (intros [_ ?]; done).
        unfold get_subject. by rewrite lookup_empty, Hp.
    + rewrite decide_False by (intros [? _]; done).
      by apply get_subject_insert_empty.
Qed.

Lemma set_playlist_effect ctx name url user_data subj pid :
  is_dm ctx = true ->
  get_subject user_data (author_id ctx) (lower name) = Some subj ->
  extract_playlist_id url = Some pid ->
  let r := set_playlist lower ctx name url user_data in
  sent r = [PlaylistLocked (lower name)] /\
  forall u s,
    get_subject (data r) u s =
    if decide (u = author_id ctx /\ s = lower name)
    then Some (Subject (Some pid) (cached_lecture subj))
    else get_subject user_data u s.
Proof.
  intros Hdm Hsub Hx r. subst r. unfold set_playlist. rewrite Hdm. simpl.
  unfold get_subject in Hsub.
  destruct (user_data !! author_id ctx) as [p|] eqn:Hp; [|done].
  rewrite Hsub, Hx.
  destruct (extract_Some_shape url pid Hx) as (-> & _). simpl.
  split; [done|]. intros u s. by apply get_subject_update.
Qed.

Lemma latest_effect ctx name env user_data subj pid v rest t sm :
  is_dm ctx = true ->
  get_subject user_data (author_id ctx) (lower name) = Some subj ->
  playlist_id subj = Some pid ->
  playlist_items env pid = inr (v :: rest) ->
  resolve_transcript env (videoId v) = inr t ->
  chat_completion env (build_prompt (snippet_title v) t) = inr sm ->
  let r := latest_lecture_summary lower ctx name env user_data in
  calls r = [YoutubeList pid; TranscriptFetch (videoId v);
             ChatCompletion (build_prompt (snippet_title v) t)] /\
  sent r = [OnIt; FoundIt (snippet_title v); TranscriptAcquired;
            SummaryEmbed (snippet_title v) sm (watch_url (videoId v))
              (lower name)] /\
  forall u s,
    get_subject (data r) u s =
    if decide (u = author_id ctx /\ s = lower name)
    then Some (Subject (Some pid)
                 (Some (LectureCache t sm (snippet_title v))))
    else get_subject user_data u s.
Proof.
  intros Hdm Hsub Hpid Hitems Ht Hsm r. subst r.
  unfold get_subject in Hsub.
  destruct (user_data !! author_id ctx) as [p|] eqn:Hp; [|done].
  rewrite (latest_configured lower ctx name env user_data p subj pid Hdm)
    by by apply configured_Some.
  rewrite Hitems, Ht. cbn zeta. rewrite Hsm. cbn [calls sent data].
  split; [done|]. split; [done|]. intros u s. rewrite Hpid.
  by apply get_subject_update.
Qed.

(** Every command leaves all entries as they are, or writes exactly one
    entry, that of the invoking user under the lowered name. *)
Lemma exec_effect c user_data :
  (forall u s, get_subject (data (exec lower c user_data)) u s
               = get_subject user_data u s) \/
  exists name x,
    is_dm (command_ctx c) = true /\
    (forall u s,
       get_subject (data (exec lower c user_data)) u s =
       if decide (u = author_id (command_ctx c) /\ s = name) then Some x
       else get_subject user_data u s) /\
    match c with
    | AddSubject _ n =>
        name = lower n /\
        get_subject user_data (author_id (command_ctx c)) name = None /\
        x = Subject None None
    | SetPlaylist _ n url =>
        name = lower n /\
        exists subj pid,
          get_subject user_data (author_id (command_ctx c)) name = Some subj /\
          extract_playlist_id url = Some pid /\
          x = Subject (Some pid) (cached_lecture subj)
    | LatestLec _ n env =>
        name = lower n /\
        exists subj pid cache,
          get_subject user_data (author_id (command_ctx c)) name = Some subj /\
          playlist_id subj = Some pid /\
          x = Subject (Some pid) (Some cache)
    end.
Proof.
  destruct (is_dm (command_ctx c)) eqn:Hdm;
    [|left; intros u s; by rewrite (exec_outside_dm lower c user_data Hdm)].
  destruct c as [ctx n | ctx n url | ctx n env]; simpl in Hdm; simpl exec;
    cbn [command_ctx].
  - destruct (get_subject user_data (author_id ctx) (lower n)) as [subj|]
      eqn:Hsub.
    + left. intros u s.
      by rewrite (add_subject_existing lower ctx n user_data subj Hdm Hsub).
    + right. exists (lower n), (Subject None None).
      destruct (add_subject_effect ctx n user_data Hdm Hsub) as [_ Hd].
      by repeat split.
  - destruct (get_subject user_data (author_id ctx) (lower n)) as [subj|]
      eqn:Hsub.
    + destruct (extract_playlist_id url) as [pid|] eqn:Hx.
      * right. exists (lower n), (Subject (Some pid) (cached_lecture subj)).
        destruct (set_playlist_effect ctx n url user_data subj pid Hdm Hsub Hx)
          as [_ Hd].
        split; [done|]. split; [done|]. split; [done|]. by exists subj, pid.
      * left. intros u s. unfold set_playlist. rewrite Hdm. simpl.
        unfold get_subject in Hsub.
        destruct (user_data !! author_id ctx) as [p|]; [|done].
        by rewrite Hsub, Hx.
    + left. intros u s. unfold set_playlist. rewrite Hdm. simpl.
      unfold get_subject in Hsub.
      destruct (user_data !! author_id ctx) as [p|]; [|done].
      by rewrite Hsub.
  - destruct (configured user_data (author_id ctx) (lower n))
      as [[[p subj] pid]|] eqn:Hc.
    + rewrite (latest_configured lower ctx n env user_data p subj pid Hdm Hc).
      apply configured_Some in Hc as (Hp & Hs & Hpid).
      destruct (playlist_items env pid) as [e|[|v rest]] eqn:Hitems;
        [by left..|].
      destruct (resolve_transcript env (videoId v)) as [e|t] eqn:Ht;
        [by left|]. cbn zeta.
      destruct (chat_completion env (build_prompt (snippet_title v) t))
        as [e|sm] eqn:Hsm; [by left|].
      right. cbn [data].
      exists (lower n),
        (Subject (Some pid) (Some (LectureCache t sm (snippet_title v)))).
      split; [done|]. split.
      * intros u s. rewrite Hpid. by apply get_subject_update.
      * split; [done|].
        exists subj, pid, (LectureCache t sm (snippet_title v)).
        split; [|done]. unfold get_subject. by rewrite Hp.
    + left. intros u s.
      by rewrite (latest_unconfigured lower ctx n env user_data Hdm Hc).
Qed.

(** [!addsubject] and [!setplaylist] are local: no branch of them calls
    a service. *)
Lemma local_commands_no_calls ctx name url user_data :
  calls (add_subject lower ctx name user_data) = [] /\
  calls (set_playlist lower ctx name url user_data) = [].
Proof.
  unfold add_subject, set_playlist. destruct (is_dm ctx); simpl; [|done].
  split.
  - destruct (user_data !! author_id ctx) as [p|] eqn:Hp.
    + rewrite Hp. simpl. by destruct (p !! lower name).
    + rewrite lookup_insert_eq. simpl. by rewrite lookup_empty.
  - destruct (user_data !! author_id ctx) as [p|]; [|done].
    destruct (p !! lower name); [|done].
    destruct (extract_playlist_id url) as [pid|]; [|done].
    by destruct (Str.is_empty pid).
Qed.

Lemma decide_own_False (u uid : Z) (s name : string) {A} (x y : A) :
  u <> uid \/ s <> name ->
  (if decide (u = uid /\ s = name) then x else y) = y.
Proof. intros Hne. apply decide_False. intros [-> ->]. by destruct Hne. Qed.

(** X3.  Linking a playlist to a registered subject stores the extracted
    identifier in that subject, overwriting any earlier one, and keeps
    the subject's cached lecture as it was; every other subject of every
    user is untouched and no service is called. *)
Theorem set_playlist_links ctx name url user_data subj pid :
  is_dm ctx = true ->
  get_subject user_data (author_id ctx) (lower name) = Some subj ->
  extract_playlist_id url = Some pid ->
  let r := set_playlist lower ctx name url user_data in
  sent r = [PlaylistLocked (lower name)] /\
  calls r = [] /\
  get_subject (data r) (author_id ctx) (lower name)
    = Some (Subject (Some pid) (cached_lecture subj)) /\
  forall u s, u <> author_id ctx \/ s <> lower name ->
    get_subject (data r) u s = get_subject user_data u s.
Proof.
  intros Hdm Hsub Hx r.
  destruct (set_playlist_effect ctx name url user_data subj pid Hdm Hsub Hx)
    as [Hsent Hd].
  fold r in Hsent, Hd. split; [done|].
  split; [apply (local_commands_no_calls ctx name url user_data)|].
  split.
  - rewrite Hd. by rewrite decide_True.
  - intros u s Hne. rewrite Hd. by apply decide_own_False.
Qed.

(** X4.  A link request whose text holds no playlist identifier is
    refused on the spot: the reply says the URL is not valid and the
    registry is the one given, so the subject keeps its playlist id. *)
Theorem set_playlist_invalid_url ctx name url user_data subj :
  is_dm ctx = true ->
  get_subject user_data (author_id ctx) (lower name) = Some subj ->
  extract_playlist_id url = None ->
  set_playlist lower ctx name url user_data
    = Result user_data [] [InvalidPlaylistUrl].
Proof.
  intros Hdm Hsub Hx. unfold set_playlist. rewrite Hdm. simpl.
  unfold get_subject in Hsub.
  destruct (user_data !! author_id ctx) as [p|]; [|done].
  by rewrite Hsub, Hx.
Qed.

(** X5.  Registering a subject the user does not have yet creates it
    with no playlist id and no cached lecture, also for a user seen for
    the first time; every other subject of every user is untouched and no
    service is called. *)
Theorem add_subject_creates ctx name user_data :
  is_dm ctx = true ->
  get_subject user_data (author_id ctx) (lower name) = None ->
  let r := add_subject lower ctx name user_data in
  sent r = [SubjectAdded (lower name)] /\
  calls r = [] /\
  get_subject (data r) (author_id ctx) (lower name)
    = Some (Subject None None) /\
  forall u s, u <> author_id ctx \/ s <> lower name ->
    get_subject (data r) u s = get_subject user_data u s.
Proof.
  intros Hdm Hnone r.
  destruct (add_subject_effect ctx name user_data Hdm Hnone) as [Hsent Hd].
  fold r in Hsent, Hd. split; [done|].
  split; [apply (local_commands_no_calls ctx name "" user_data)|].
  split.
  - rewrite Hd. by rewrite decide_True.
  - intros u s Hne. rewrite Hd. by apply decide_own_False.
Qed.

(** No command deletes a subject, unlinks a playlist or drops a cached
    lecture. *)
Lemma exec_keeps c user_data u s subj :
  get_subject user_data u s = Some subj ->
  exists subj',
    get_subject (data (exec lower c user_data)) u s = Some subj' /\
    (is_Some (playlist_id subj) -> is_Some (playlist_id subj')) /\
    (is_Some (cached_lecture subj) -> is_Some (cached_lecture subj')).
Proof.
  intros Hsub.
  destruct (exec_effect c user_data) as [Hsame | (name & x & Hdm & Hd & Hc)].
  - exists subj. by rewrite Hsame.
  - rewrite Hd. destruct (decide _) as [[-> ->]|Hne]; [|by exists subj].
    exists x. split; [done|].
    destruct c as [ctx n | ctx n url | ctx n env]; cbn [command_ctx] in *.
    + destruct Hc as (_ & Hnone & _). congruence.
    + destruct Hc as (_ & subj0 & pid & Hs0 & _ & ->). simpl.
      split; [by eauto|]. congruence.
    + destruct Hc as (_ & subj0 & pid & cache & Hs0 & Hpid & ->). simpl.
      split; by eauto.
Qed.

(** X6.  Whatever command runs, a subject that is in the registry is
    still there afterwards; if it had a playlist id it still has one, and
    if it had a cached lecture it still has one. *)
Theorem exec_keeps_subjects c user_data u s subj :
  get_subject user_data u s = Some subj ->
  exists subj',
    get_subject (data (exec lower c user_data)) u s = Some subj' /\
    (is_Some (playlist_id subj) -> is_Some (playlist_id subj')) /\
    (is_Some (cached_lecture subj) -> is_Some (cached_lecture subj')).
Proof. apply exec_keeps. Qed.

(** X7.  In the registry of a session, a user has a subject under a name
    exactly when the session holds an [!addsubject] of that user, sent in
    a DM, whose argument lowers to that name: nothing else creates a
    subject and nothing removes one. *)
Theorem session_subject_iff cs u s :
  is_Some (get_subject (session lower cs) u s) <->
  exists ctx name,
    In (AddSubject ctx name) cs /\ is_dm ctx = true /\
    author_id ctx = u /\ lower name = s.
Proof.
  induction cs as [|c cs IH] using rev_ind.
  - split.
    + intros [x Hx]. unfold session, get_subject in Hx. simpl in Hx.
      by rewrite lookup_empty in Hx.
    + by intros (ctx & name & [] & _).
  - rewrite (session_snoc lower). split.
    + intros [x Hx].
      assert (is_Some (get_subject (session lower cs) u s) \/
              exists ctx name, c = AddSubject ctx name /\ is_dm ctx = true /\
                               author_id ctx = u /\ lower name = s) as Hcase.
      { destruct (exec_effect c (session lower cs))
          as [Hsame | (name & y & Hdm & Hd & Hc)].
        - left. rewrite <- Hsame. by eexists.
        - rewrite Hd in Hx. destruct (decide _) as [[-> ->]|Hne];
            [|left; by eexists].
          destruct c as [ctx n | ctx n url | ctx n env];
            cbn [command_ctx] in *.
          + right. exists ctx, n. by destruct Hc as (-> & _).
          + left. destruct Hc as (_ & subj0 & _ & Hs0 & _). by eexists.
          + left. destruct Hc as (_ & subj0 & _ & _ & Hs0 & _). by eexists. }
      destruct Hcase as [Hold | (ctx & name & -> & Hrest)].
      * apply IH in Hold as (ctx & name & Hin & Hrest).
        exists ctx, name. split; [|done]. apply in_or_app. by left.
      * exists ctx, name. split; [|done]. apply in_or_app. right. by left.
    + intros (ctx & name & Hin & Hdm & <- & <-).
      apply in_app_or in Hin as [Hin | [-> | []]].
      * assert (is_Some (get_subject (session lower cs) (author_id ctx)
                           (lower name))) as [x Hx].
        { apply IH. by exists ctx, name. }
        destruct (exec_keeps c _ _ _ x Hx) as (x' & Hx' & _). by eexists.
      * simpl exec. by apply add_subject_registers.
Qed.

(** X8.  In the registry of a session, a playlist id that a subject holds
    was extracted from the URL of a [!setplaylist] of that user for that
    subject, sent in a DM; it is therefore a non-empty run of letters,
    digits, underscores and hyphens. *)
Theorem session_playlist_provenance cs u s subj pid :
  get_subject (session lower cs) u s = Some subj ->
  playlist_id subj = Some pid ->
  identifier_shaped pid /\
  exists ctx name url,
    In (SetPlaylist ctx name url) cs /\ is_dm ctx = true /\
    author_id ctx = u /\ lower name = s /\
    extract_playlist_id url = Some pid.
Proof.
  intros Hsub Hpid.
  assert (exists ctx name url,
    In (SetPlaylist ctx name url) cs /\ is_dm ctx = true /\
    author_id ctx = u /\ lower name = s /\
    extract_playlist_id url = Some pid) as Hprov.
  { revert subj Hsub Hpid.
    induction cs as [|c cs IH] using rev_ind; intros subj Hsub Hpid.
    - unfold session, get_subject in Hsub. simpl in Hsub.
      by rewrite lookup_empty in Hsub.
    - rewrite (session_snoc lower) in Hsub.
      assert ((exists subj0, get_subject (session lower cs) u s = Some subj0 /\
                             playlist_id subj0 = Some pid) \/
              exists ctx name url, c = SetPlaylist ctx name url /\
                is_dm ctx = true /\ author_id ctx = u /\ lower name = s /\
                extract_playlist_id url = Some pid) as Hcase.
      { destruct (exec_effect c (session lower cs))
          as [Hsame | (name & y & Hdm & Hd & Hc)].
        - left. exists subj. by rewrite <- Hsame.
        - rewrite Hd in Hsub. destruct (decide _) as [[-> ->]|Hne];
            [|left; by exists subj].
          injection Hsub as ->.
          destruct c as [ctx n | ctx n url | ctx n env];
            cbn [command_ctx] in *.
          + destruct Hc as (_ & _ & ->). done.
          + right. destruct Hc as (-> & subj0 & pid0 & Hs0 & Hx & ->).
            simpl in Hpid. injection Hpid as ->. by exists ctx, n, url.
          + left. destruct Hc as (_ & subj0 & pid0 & cache & Hs0 & Hp0 & ->).
            simpl in Hpid. injection Hpid as ->. by exists subj0. }
      destruct Hcase as [(subj0 & Hs0 & Hp0) | (ctx & name & url & -> & Hrest)].
      + destruct (IH subj0 Hs0 Hp0) as (ctx & name & url & Hin & Hrest).
        exists ctx, name, url. split; [|done]. apply in_or_app. by left.
      + exists ctx, name, url. split; [|done]. apply in_or_app. right. by left. }
  split; [|done].
  destruct Hprov as (ctx & name & url & _ & _ & _ & _ & Hx).
  by destruct (extract_Some_shape url pid Hx) as (H1 & H2 & _).
Qed.

(** The registry a command returns: the one given, or one entry written
    into a profile, possibly after an empty profile was made for a new
    user. *)
Lemma exec_data_shape c user_data :
  data (exec lower c user_data) = user_data \/
  exists uid name x (prof : profile) (base : registry),
    data (exec lower c user_data) = <[uid := <[name := x]> prof]> base /\
    (base = user_data \/ base = <[uid := ∅]> user_data).
Proof.
  destruct c as [ctx n | ctx n url | ctx n env]; simpl exec.
  - unfold add_subject. destruct (is_dm ctx); simpl; [|by left].
    destruct (user_data !! author_id ctx) as [p|] eqn:Hp.
    + rewrite Hp. simpl. destruct (p !! lower n); simpl; [by left|].
      right. exists (author_id ctx), (lower n), (Subject None None), p,
        user_data. by split; [|left].
    + rewrite lookup_insert_eq. simpl. rewrite lookup_empty. simpl.
      right. exists (author_id ctx), (lower n), (Subject None None), ∅,
        (<[author_id ctx := ∅]> user_data). by split; [|right].
  - unfold set_playlist. destruct (is_dm ctx); simpl; [|by left].
    destruct (user_data !! author_id ctx) as [p|]; [|by left].
    destruct (p !! lower n) as [subj|]; [|by left].
    destruct (extract_playlist_id url) as [pid|]; [|by left].
    destruct (Str.is_empty pid); simpl; [by left|].
    right. exists (author_id ctx), (lower n),
      (Subject (Some pid) (cached_lecture subj)), p, user_data.
    by split; [|left].
  - destruct (is_dm ctx) eqn:Hdm;
      [|left; unfold latest_lecture_summary; by rewrite Hdm].
    destruct (configured user_data (author_id ctx) (lower n))
      as [[[p subj] pid]|] eqn:Hc;
      [|left; by rewrite (latest_unconfigured lower ctx n env user_data Hdm Hc)].
    rewrite (latest_configured lower ctx n env user_data p subj pid Hdm Hc).
    destruct (playlist_items env pid) as [e|[|v rest]]; [by left..|].
    destruct (resolve_transcript env (videoId v)) as [e|t]; [by left|].
    cbn zeta.
    destruct (chat_completion env (build_prompt (snippet_title v) t)) as [e|sm]; [by left|].
    right. cbn [data]. exists (author_id ctx), (lower n),
      (Subject (playlist_id subj)
         (Some (LectureCache t sm (snippet_title v)))), p, user_data.
    by split; [|left].
Qed.

Lemma exec_profiles_nonempty c user_data :
  (forall u (p : profile), user_data !! u = Some p -> p <> ∅) ->
  forall u (p : profile), data (exec lower c user_data) !! u = Some p -> p <> ∅.
Proof.
  intros Hinv u p.
  destruct (exec_data_shape c user_data)
    as [-> | (uid & name & x & prof & base & -> & Hbase)]; [by apply Hinv|].
  destruct (decide (u = uid)) as [->|Hu].
  - rewrite lookup_insert_eq. intros [= <-]. apply insert_non_empty.
  - rewrite lookup_insert_ne by done.
    destruct Hbase as [-> | ->]; [by apply Hinv|].
    rewrite lookup_insert_ne by done. by apply Hinv.
Qed.

(** X9.  In the registry of a session no user has an empty profile: a
    profile is only ever made together with its first subject.  (So the
    emptiness test on the profile in [!latestlec] never decides.) *)
Theorem session_no_empty_profile cs u (p : profile) :
  session lower cs !! u = Some p -> p <> ∅.
Proof.
  revert u p. induction cs as [|c cs IH] using rev_ind; intros u p.
  - unfold session. simpl. by rewrite lookup_empty.
  - rewrite (session_snoc lower). by apply exec_profiles_nonempty.
Qed.

(** X10.  When all three stages succeed, [!latestlec] has called the
    hosting service, the transcript service and the summarization service
    once each, in this order, the last with the prompt built from the
    title and transcript; it replaces the subject's cached lecture,
    whatever it was, by the transcript, summary and title of this run,
    keeps the playlist id, and touches no other subject. *)
Theorem latest_success ctx name env user_data subj pid v rest t sm :
  is_dm ctx = true ->
  get_subject user_data (author_id ctx) (lower name) = Some subj ->
  playlist_id subj = Some pid ->
  playlist_items env pid = inr (v :: rest) ->
  resolve_transcript env (videoId v) = inr t ->
  chat_completion env (build_prompt (snippet_title v) t) = inr sm ->
  let r := latest_lecture_summary lower ctx name env user_data in
  calls r = [YoutubeList pid; TranscriptFetch (videoId v);
             ChatCompletion (build_prompt (snippet_title v) t)] /\
  terminal r = Some (SummaryEmbed (snippet_title v) sm
                       (watch_url (videoId v)) (lower name)) /\
  get_subject (data r) (author_id ctx) (lower name)
    = Some (Subject (Some pid) (Some (LectureCache t sm (snippet_title v)))) /\
  forall u s, u <> author_id ctx \/ s <> lower name ->
    get_subject (data r) u s = get_subject user_data u s.
Proof.
  intros Hdm Hsub Hpid Hitems Ht Hsm r.
  destruct (latest_effect ctx name env user_data subj pid v rest t sm
              Hdm Hsub Hpid Hitems Ht Hsm) as (Hcalls & Hsent & Hd).
  fold r in Hcalls, Hsent, Hd. split; [done|]. split.
  - unfold terminal. by rewrite Hsent.
  - split.
    + rewrite Hd. by rewrite decide_True.
    + intros u s Hne. rewrite Hd. by apply decide_own_False.
Qed.

(** X11.  The calls of a [!latestlec] run are an initial part of the
    chain lookup, fetch, completion.  The lookup is made only in a DM for
    a subject that holds that playlist id; the fetch only for the video
    of the first item that lookup returned; the completion only with the
    prompt built from the title of that same first item and the
    transcript the fetch for its video resolved to.  A later stage never
    runs on a failed earlier one. *)
Theorem latest_calls_gated ctx name env user_data :
  let r := latest_lecture_summary lower ctx name env user_data in
  (exists pid vid prompt,
     calls r `prefix_of`
       [YoutubeList pid; TranscriptFetch vid; ChatCompletion prompt]) /\
  (forall pid, In (YoutubeList pid) (calls r) ->
     is_dm ctx = true /\
     exists subj,
       get_subject user_data (author_id ctx) (lower name) = Some subj /\
       playlist_id subj = Some pid) /\
  (forall vid, In (TranscriptFetch vid) (calls r) ->
     exists pid v rest,
       In (YoutubeList pid) (calls r) /\
       playlist_items env pid = inr (v :: rest) /\ vid = videoId v) /\
  (forall prompt, In (ChatCompletion prompt) (calls r) ->
     exists pid v rest t,
       In (YoutubeList pid) (calls r) /\
       playlist_items env pid = inr (v :: rest) /\
       In (TranscriptFetch (videoId v)) (calls r) /\
       resolve_transcript env (videoId v) = inr t /\
       prompt = build_prompt (snippet_title v) t).
Proof.
  intros r. subst r.
  assert (forall (l : list call),
    l = [] ->
    (exists pid vid prompt,
       l `prefix_of`
         [YoutubeList pid; TranscriptFetch vid; ChatCompletion prompt]) /\
    (forall pid, In (YoutubeList pid) l ->
       is_dm ctx = true /\
       exists subj,
         get_subject user_data (author_id ctx) (lower name) = Some subj /\
         playlist_id subj = Some pid) /\
    (forall vid, In (TranscriptFetch vid) l ->
       exists pid v rest,
         In (YoutubeList pid) l /\
         playlist_items env pid = inr (v :: rest) /\ vid = videoId v) /\
    (forall prompt, In (ChatCompletion prompt) l ->
       exists pid v rest t,
         In (YoutubeList pid) l /\
         playlist_items env pid = inr (v :: rest) /\
         In (TranscriptFetch (videoId v)) l /\
         resolve_transcript env (videoId v) = inr t /\
         prompt = build_prompt (snippet_title v) t)) as Hnil.
  { intros l ->. split; [|by repeat split].
    exists "", "", "". apply prefix_nil. }
  destruct (is_dm ctx) eqn:Hdm;
    [|unfold latest_lecture_summary; rewrite Hdm; by apply Hnil].
  destruct (configured user_data (author_id ctx) (lower name))
    as [[[p subj] pid]|] eqn:Hc;
    [|rewrite (latest_unconfigured lower ctx name env user_data Hdm Hc);
      by apply Hnil].
  rewrite (latest_configured lower ctx name env user_data p subj pid Hdm Hc).
  apply configured_Some in Hc as (Hp & Hs & Hpid).
  assert (get_subject user_data (author_id ctx) (lower name) = Some subj)
    as Hsub by (unfold get_subject; by rewrite Hp).
  clear Hnil.
  destruct (playlist_items env pid) as [e|[|v rest]] eqn:Hitems.
  1,2: cbn [calls]; split;
    [exists pid, "", ""; by exists [TranscriptFetch ""; ChatCompletion ""]|];
    split; [intros pid' [[= <-]|[]]; split; [done|by exists subj]|];
    split; [by intros vid [[=]|[]] | by intros prompt [[=]|[]]].
  destruct (resolve_transcript env (videoId v)) as [e|t] eqn:Ht.
  - cbn [calls]. split;
      [exists pid, (videoId v), ""; by exists [ChatCompletion ""]|].
    split; [intros pid' [[= <-]|[[=]|[]]]; split; [done|by exists subj]|].
    split.
    + intros vid [[=]|[[= <-]|[]]]. exists pid, v, rest.
      split; [by left|done].
    + by intros prompt [[=]|[[=]|[]]].
  - cbn zeta.
    assert (forall (l : list call),
      l = [YoutubeList pid; TranscriptFetch (videoId v);
           ChatCompletion (build_prompt (snippet_title v) t)] ->
      (exists pid vid prompt,
         l `prefix_of`
           [YoutubeList pid; TranscriptFetch vid; ChatCompletion prompt]) /\
      (forall pid, In (YoutubeList pid) l ->
         is_dm ctx = true /\
         exists subj,
           get_subject user_data (author_id ctx) (lower name) = Some subj /\
           playlist_id subj = Some pid) /\
      (forall vid, In (TranscriptFetch vid) l ->
         exists pid v rest,
           In (YoutubeList pid) l /\
           playlist_items env pid = inr (v :: rest) /\ vid = videoId v) /\
      (forall prompt, In (ChatCompletion prompt) l ->
         exists pid v rest t,
           In (YoutubeList pid) l /\
           playlist_items env pid = inr (v :: rest) /\
           In (TranscriptFetch (videoId v)) l /\
           resolve_transcript env (videoId v) = inr t /\
           prompt = build_prompt (snippet_title v) t)) as Hfull.
    { intros l ->. split;
        [exists pid, (videoId v), (build_prompt (snippet_title v) t);
         by exists []|].
      split;
        [intros pid' [[= <-]|[[=]|[[=]|[]]]]; split; [done|by exists subj]|].
      split.
      - intros vid [[=]|[[= <-]|[[=]|[]]]]. exists pid, v, rest.
        split; [by left|done].
      - intros prompt [[=]|[[=]|[[= <-]|[]]]]. exists pid, v, rest, t.
        split; [by left|]. split; [done|]. split; [right; by left|done]. }
    rewrite Hdm in Hfull.
    destruct (chat_completion env (build_prompt (snippet_title v) t))
      as [e|sm]; exact (Hfull _ eq_refl).
Qed.

(** X12.  A [!latestlec] run never creates a subject and never changes a
    playlist id; it leaves every subject other than the one it was asked
    about exactly as it was; and it changes the registry only in a run
    that ends with the summary embed. *)
Theorem latest_touches_only_cache ctx name env user_data :
  let r := latest_lecture_summary lower ctx name env user_data in
  (forall u s,
     playlist_id <$> get_subject (data r) u s
     = playlist_id <$> get_subject user_data u s) /\
  (forall u s, u <> author_id ctx \/ s <> lower name ->
     get_subject (data r) u s = get_subject user_data u s) /\
  (data r <> user_data ->
     exists t sm url,
       terminal r = Some (SummaryEmbed t sm url (lower name))).
Proof.
  intros r. subst r.
  destruct (is_dm ctx) eqn:Hdm;
    [|unfold latest_lecture_summary; rewrite Hdm; by repeat split].
  destruct (configured user_data (author_id ctx) (lower name))
    as [[[p subj] pid]|] eqn:Hc;
    [|rewrite (latest_unconfigured lower ctx name env user_data Hdm Hc);
      by repeat split].
  rewrite (latest_configured lower ctx name env user_data p subj pid Hdm Hc).
  apply configured_Some in Hc as (Hp & Hs & Hpid).
  destruct (playlist_items env pid) as [e|[|v rest]]; [by repeat split..|].
  destruct (resolve_transcript env (videoId v)) as [e|t];
    [by repeat split|].
  cbn zeta.
  destruct (chat_completion env (build_prompt (snippet_title v) t)) as [e|sm]; [by repeat split|].
  cbn [data]. split; [|split].
  - intros u s. rewrite (get_subject_update user_data _ p _ _ u s Hp).
    destruct (decide _) as [[-> ->]|Hne]; [|done].
    unfold get_subject. by rewrite Hp, Hs.
  - intros u s Hne. rewrite (get_subject_update user_data _ p _ _ u s Hp).
    by apply decide_own_False.
  - intros _. by eexists _, _, _.
Qed.

(** X13.  Only the first item of the playlist answer is ever read: a run
    against services whose answers are cut down to their first item gives
    the same registry, calls and replies. *)
Theorem latest_first_item_only ctx name env user_data :
  latest_lecture_summary lower ctx name (first_item_only env) user_data
  = latest_lecture_summary lower ctx name env user_data.
Proof.
  unfold latest_lecture_summary. destruct (negb (is_dm ctx)); [done|].
  destruct (configured user_data (author_id ctx) (lower name))
    as [[[p subj] pid]|]; [|done].
  unfold resolve_transcript. cbn [first_item_only playlist_items fetch
                                  chat_completion].
  by destruct (playlist_items env pid) as [e|[|v rest]].
Qed.

(** X18.  Register, then link: after an [!addsubject] and a
    [!setplaylist] for the same lowered name with a URL that holds an
    identifier, whatever the registry was before, the subject holds that
    identifier and a [!latestlec] run asks the hosting service for
    exactly that playlist. *)
Theorem register_then_link ctx name name' url user_data pid :
  is_dm ctx = true ->
  lower name' = lower name ->
  extract_playlist_id url = Some pid ->
  let linked :=
    data (set_playlist lower ctx name' url
            (data (add_subject lower ctx name user_data))) in
  (exists subj,
     get_subject linked (author_id ctx) (lower name) = Some subj /\
     playlist_id subj = Some pid) /\
  forall env name'', lower name'' = lower name ->
    head (calls (latest_lecture_summary lower ctx name'' env linked))
    = Some (YoutubeList pid).
Proof.
  intros Hdm Hlow Hx linked.
  destruct (add_subject_registers lower ctx name user_data Hdm)
    as [subj0 Hsubj0].
  rewrite <- Hlow in Hsubj0.
  destruct (set_playlist_effect ctx name' url _ subj0 pid Hdm Hsubj0 Hx)
    as [_ Hd].
  fold linked in Hd.
  assert (get_subject linked (author_id ctx) (lower name)
          = Some (Subject (Some pid) (cached_lecture subj0))) as Hlinked.
  { rewrite Hd, Hlow. by rewrite decide_True. }
  split; [by eexists|].
  intros env name'' Hlow''.
  unfold get_subject in Hlinked.
  destruct (linked !! author_id ctx) as [p|] eqn:Hp; [|done].
  rewrite (latest_configured lower ctx name'' env linked p
             (Subject (Some pid) (cached_lecture subj0)) pid Hdm)
    by (apply configured_Some; by rewrite Hlow'').
  destruct (playlist_items env pid) as [e|[|v rest]]; [done..|].
  destruct (resolve_transcript env (videoId v)) as [e|t]; [done|].
  cbn zeta. by destruct (chat_completion env (build_prompt (snippet_title v) t)).
Qed.

(** ** Where a cached lecture comes from *)

(** [!latestlec] either keeps a cached lecture or is the run that
    wrote it. *)
Lemma latest_cache ctx name env user_data u s subj cache :
  get_subject (data (latest_lecture_summary lower ctx name env user_data)) u s
    = Some subj ->
  cached_lecture subj = Some cache ->
  produced_by lower user_data (LatestLec ctx name env) u s cache \/
  exists subj', get_subject user_data u s = Some subj' /\
                cached_lecture subj' = Some cache.
Proof.
  destruct (is_dm ctx) eqn:Hdm;
    [|unfold latest_lecture_summary; rewrite Hdm; simpl; by eauto].
  destruct (configured user_data (author_id ctx) (lower name))
    as [[[p subj0] pid]|] eqn:Hc;
    [|rewrite (latest_unconfigured lower ctx name env user_data Hdm Hc);
      simpl; by eauto].
  pose proof Hc as Hc'. apply configured_Some in Hc' as (Hp & Hs0 & Hpid).
  assert (get_subject user_data (author_id ctx) (lower name) = Some subj0)
    as Hsub0 by (unfold get_subject; by rewrite Hp).
  destruct (playlist_items env pid) as [e|[|v rest]] eqn:Hitems;
    [rewrite (latest_configured lower ctx name env user_data p subj0 pid
                Hdm Hc), Hitems; simpl; by eauto..|].
  destruct (resolve_transcript env (videoId v)) as [e|t] eqn:Ht;
    [rewrite (latest_configured lower ctx name env user_data p subj0 pid
                Hdm Hc), Hitems, Ht; simpl; by eauto|].
  destruct (chat_completion env (build_prompt (snippet_title v) t))
    as [e|sm] eqn:Hsm;
    [rewrite (latest_configured lower ctx name env user_data p subj0 pid
                Hdm Hc), Hitems, Ht; cbn zeta; rewrite Hsm; simpl; by eauto|].
  destruct (latest_effect ctx name env user_data subj0 pid v rest t sm
              Hdm Hsub0 Hpid Hitems Ht Hsm) as (Hcalls & Hsent & Hd).
  intros Hl Hcache. rewrite Hd in Hl.
  destruct (decide _) as [[-> ->]|Hne]; [|right; by exists subj].
  injection Hl as <-. simpl in Hcache. injection Hcache as <-.
  left. cbn [produced_by exec c_title c_transcript c_summary].
  split; [done|]. split; [done|]. split; [done|].
  unfold resolve_transcript in Ht.
  destruct (fetch env (videoId v)) as [e|d] eqn:Hfetch; [done|].
  exists subj0, pid, v, rest, d.
  split; [done|]. split; [done|]. split; [done|]. split; [done|].
  split; [done|]. split; [done|]. split; [done|]. split; [done|].
  split.
  - unfold terminal. by rewrite Hsent.
  - rewrite Hd. by rewrite decide_True.
Qed.

Lemma exec_cache c user_data u s subj cache :
  get_subject (data (exec lower c user_data)) u s = Some subj ->
  cached_lecture subj = Some cache ->
  produced_by lower user_data c u s cache \/
  exists subj', get_subject user_data u s = Some subj' /\
                cached_lecture subj' = Some cache.
Proof.
  destruct c as [ctx name | ctx name url | ctx name env]; simpl exec.
  - intros H1 H2. right. by eapply add_subject_cache.
  - intros H1 H2. right. by eapply set_playlist_cache.
  - apply latest_cache.
Qed.

Lemma prefix_snoc_cases {A} (l k : list A) x :
  l `prefix_of` k ++ [x] -> l = k ++ [x] \/ l `prefix_of` k.
Proof.
  intros [r Hr]. destruct r as [|y r _] using rev_ind.
  - left. by rewrite app_nil_r in Hr.
  - right. rewrite app_assoc in Hr. apply app_inj_tail in Hr as [-> _].
    by exists r.
Qed.

(** C3, as the code has it.  In every registry a session can reach, a
    cached lecture that is present was written by one [!latestlec] run
    of the session, sent in a DM by that user for that subject, and has
    been there since.  Run on the registry the session had reached, that
    command looked up the playlist id the subject held, fetched the
    transcript of the first item found, asked for the completion of the
    prompt built from this very title and transcript, ended with the
    summary embed and left exactly these three values in the subject:
    the cached title, transcript and summary are the ones that flowed
    through that run.  (Nothing makes the three fields non-empty.) *)
Theorem cached_lecture_provenance cs u s subj cache :
  get_subject (session lower cs) u s = Some subj ->
  cached_lecture subj = Some cache ->
  exists cs1 c cs2,
    cs = cs1 ++ c :: cs2 /\
    produced_by lower (session lower cs1) c u s cache /\
    forall cs2', cs2' `prefix_of` cs2 ->
      exists subj',
        get_subject (session lower (cs1 ++ c :: cs2')) u s = Some subj' /\
        cached_lecture subj' = Some cache.
Proof.
  revert subj. induction cs as [|c' cs IH] using rev_ind; intros subj Hl Hc.
  - unfold session, get_subject in Hl. simpl in Hl.
    by rewrite lookup_empty in Hl.
  - pose proof Hl as Hl0. rewrite (session_snoc lower) in Hl.
    destruct (exec_cache c' (session lower cs) u s subj cache Hl Hc)
      as [Hprod | (subj' & Hl' & Hc')].
    + exists cs, c', []. split; [done|]. split; [done|].
      intros cs2' ->%prefix_nil_inv. by exists subj.
    + destruct (IH subj' Hl' Hc') as (cs1 & c & cs2 & -> & Hprod & Hpers).
      exists cs1, c, (cs2 ++ [c']). split; [by rewrite <- app_assoc|].
      split; [done|].
      intros cs2' [-> | Hpre]%prefix_snoc_cases; [|by apply Hpers].
      exists subj. split; [|done].
      by rewrite app_comm_cons, app_assoc.
Qed.

End Effects.

(** ** The transcript stage: when it succeeds and how it fails *)

Lemma texts_inr items ts :
  texts items = inr ts -> map caption_text items = map Some ts.
Proof.
  revert ts. induction items as [|item items IH]; intros ts; simpl.
  - by intros [= <-].
  - destruct (item_text item) as [e|t] eqn:Hitem; [done|].
    destruct (texts items) as [e|ts'] eqn:Hrest; [done|].
    intros [= <-]. simpl. rewrite (IH ts' eq_refl).
    by destruct item as [[u|] | cls [u|]]; simplify_eq/=.
Qed.

Lemma texts_app_textless pre ts item rest :
  map caption_text pre = map Some ts ->
  texts (pre ++ item :: rest) =
  match item_text item with
  | inl e => inl e
  | inr t => match texts rest with
             | inl e => inl e
             | inr ts' => inr (ts ++ t :: ts')
             end
  end.
Proof.
  revert ts. induction pre as [|p pre IH]; intros [|t0 ts] Hmap;
    simpl in *; try done.
  injection Hmap as Hp Hrest. rewrite (IH ts Hrest).
  assert (item_text p = inr t0) as ->.
  { by destruct p as [[u|] | cls [u|]]; simplify_eq/=. }
  destruct (item_text item) as [e|t]; [done|].
  by destruct (texts rest).
Qed.

(** X14.  The texts are collected up to the first entry that bears none,
    and that entry's error is the result: a [KeyError] for a dict
    without a ['text'] key, an [AttributeError] naming the class for an
    object without a [text] attribute.  The entries after it, readable or
    not, do not matter. *)
Theorem texts_first_textless pre ts rest :
  map caption_text pre = map Some ts ->
  texts (pre ++ DictItem None :: rest) = inl (Exc "KeyError" "'text'") /\
  forall cls,
    texts (pre ++ ObjItem cls None :: rest)
    = inl (Exc "AttributeError"
             ("'" +:+ cls +:+ "' object has no attribute 'text'")).
Proof.
  intros Hpre. split; [|intros cls];
    by rewrite (texts_app_textless pre ts _ rest Hpre).
Qed.

Lemma strs_from_inr i vals ss :
  strs_from i vals = inr ss -> vals = map PyStr ss.
Proof.
  revert i ss. induction vals as [|[t|cls] vals IH]; intros i ss; simpl.
  - by intros [= <-].
  - destruct (strs_from (S i) vals) as [e|ss'] eqn:Hrest; [done|].
    intros [= <-]. simpl. by rewrite (IH (S i) ss' Hrest).
  - done.
Qed.

(** X15.  The normalisation succeeds exactly when the value chosen by the
    attribute chain can be iterated and every one of its entries bears a
    text that is a [str]; the result is then these texts joined by single
    spaces.  There is no partial transcript. *)
Theorem normalize_succeeds_iff d t :
  normalize d = inr t <->
  exists items ts,
    transcript_list d = Seq items /\
    str_texts items ts /\
    t = Str.join " " ts.
Proof.
  split.
  - unfold normalize, join_texts.
    destruct (transcript_list d) as [cls|items] eqn:Hl; simpl; [done|].
    destruct (texts items) as [e|vals] eqn:Hts; [done|].
    unfold py_join.
    destruct (strs_from 0 vals) as [e|ss] eqn:Hss; [done|].
    intros [= <-]. exists items, ss. split; [done|]. split; [|done].
    unfold str_texts. rewrite (texts_inr items vals Hts).
    by rewrite (strs_from_inr 0 vals ss Hss), map_map.
  - intros (items & ts & Hl & Hts & ->).
    by apply (normalize_chosen d items ts).
Qed.

(** ** The replies as texts *)

(** X16.  Replies that come from different [ctx.send] sites never read
    the same, whatever subject names, titles, URLs and exception texts
    they carry: the text of a reply tells which outcome it reports. *)
Theorem render_tells_kind r1 r2 :
  reply_kind r1 <> reply_kind r2 -> render r1 <> render r2.
Proof.
  intros Hkind Hrender. apply Hkind. clear Hkind.
  destruct r1, r2; try reflexivity; exfalso; cbv in Hrender;
    discriminate Hrender.
Qed.

(** ** Further instances *)

Lemma extract_playlist_id_token_witness :
  extract_playlist_id "https://www.youtube.com/watch?v=abc&list=PLx9&index=2"
    = Some "PLx9" /\
  identifier_shaped "PLx9" /\
  exists pre rest,
    "https://www.youtube.com/watch?v=abc&list=PLx9&index=2"
      = pre +:+ "list=" +:+ "PLx9" +:+ rest /\
    Str.stops id_char rest = true.
Proof.
  split; [reflexivity|].
  exact (extract_playlist_id_token
           "https://www.youtube.com/watch?v=abc&list=PLx9&index=2" "PLx9"
           eq_refl).
Defined.

Lemma set_playlist_links_witness :
  is_dm Scenario.alice = true /\
  get_subject Scenario.summarized 42 (Scenario.lower "CS101")
    = Some (Subject (Some "PLabc")
              (Some (LectureCache "hello world"
                       ("- point one" +:+ Str.nl +:+ "- point two") "Lec 1"))) /\
  extract_playlist_id "https://youtube.com/playlist?list=PLnew" = Some "PLnew" /\
  get_subject
    (data (set_playlist Scenario.lower Scenario.alice "CS101"
             "https://youtube.com/playlist?list=PLnew" Scenario.summarized))
    42 "cs101"
  = Some (Subject (Some "PLnew")
            (Some (LectureCache "hello world"
                     ("- point one" +:+ Str.nl +:+ "- point two") "Lec 1"))).
Proof.
  do 3 (split; [reflexivity|]).
  exact (proj1 (proj2 (proj2
           (set_playlist_links Scenario.lower Scenario.alice "CS101"
              "https://youtube.com/playlist?list=PLnew" Scenario.summarized
              _ "PLnew" eq_refl eq_refl eq_refl)))).
Defined.

Lemma set_playlist_invalid_url_witness :
  is_dm Scenario.alice = true /\
  get_subject Scenario.linked 42 (Scenario.lower "cs101")
    = Some (Subject (Some "PLabc") None) /\
  extract_playlist_id "PLother" = None /\
  set_playlist Scenario.lower Scenario.alice "cs101" "PLother" Scenario.linked
    = Result Scenario.linked [] [InvalidPlaylistUrl].
Proof.
  do 3 (split; [reflexivity|]).
  exact (set_playlist_invalid_url Scenario.lower Scenario.alice "cs101"
           "PLother" Scenario.linked _ eq_refl eq_refl eq_refl).
Defined.

Lemma add_subject_creates_witness :
  is_dm Scenario.alice = true /\
  get_subject Scenario.linked 42 (Scenario.lower "Maths") = None /\
  get_subject
    (data (add_subject Scenario.lower Scenario.alice "Maths" Scenario.linked))
    42 "maths" = Some (Subject None None) /\
  get_subject
    (data (add_subject Scenario.lower Scenario.alice "Maths" Scenario.linked))
    42 "cs101" = get_subject Scenario.linked 42 "cs101".
Proof.
  do 2 (split; [reflexivity|]).
  pose proof (add_subject_creates Scenario.lower Scenario.alice "Maths"
                Scenario.linked eq_refl eq_refl) as H.
  split.
  - exact (proj1 (proj2 (proj2 H))).
  - apply (proj2 (proj2 (proj2 H))). right. discriminate.
Defined.

Lemma exec_keeps_subjects_witness :
  get_subject Scenario.summarized 42 "cs101"
    = Some (Subject (Some "PLabc")
              (Some (LectureCache "hello world"
                       ("- point one" +:+ Str.nl +:+ "- point two") "Lec 1"))) /\
  exists subj',
    get_subject
      (data (exec Scenario.lower
               (LatestLec Scenario.alice "cs101" Scenario.lookup_down)
               Scenario.summarized)) 42 "cs101" = Some subj' /\
    (is_Some (Some "PLabc") -> is_Some (playlist_id subj')) /\
    (is_Some (Some (LectureCache "hello world"
                      ("- point one" +:+ Str.nl +:+ "- point two") "Lec 1")) ->
     is_Some (cached_lecture subj')).
Proof.
  split; [reflexivity|].
  exact (exec_keeps_subjects Scenario.lower
           (LatestLec Scenario.alice "cs101" Scenario.lookup_down)
           Scenario.summarized 42 "cs101" _ eq_refl).
Defined.

Lemma session_playlist_provenance_witness :
  get_subject (session Scenario.lower Scenario.silent_session) 42 "cs101"
    = Some (Subject (Some "PLabc")
              (Some (LectureCache "hello world" "" "Lec 1"))) /\
  identifier_shaped "PLabc" /\
  exists ctx name url,
    In (SetPlaylist ctx name url) Scenario.silent_session /\
    is_dm ctx = true /\ author_id ctx = 42 /\
    Scenario.lower name = "cs101" /\
    extract_playlist_id url = Some "PLabc".
Proof.
  split; [reflexivity|].
  exact (session_playlist_provenance Scenario.lower Scenario.silent_session
           42 "cs101" _ "PLabc" eq_refl eq_refl).
Defined.

Lemma session_no_empty_profile_witness :
  session Scenario.lower [AddSubject Scenario.alice "CS101"] !! 42
    = Some ({["cs101" := Subject None None]} : profile) /\
  ({["cs101" := Subject None None]} : profile) <> ∅.
Proof.
  split; [reflexivity|].
  exact (session_no_empty_profile Scenario.lower
           [AddSubject Scenario.alice "CS101"] 42 _ eq_refl).
Defined.

Lemma latest_success_witness :
  is_dm Scenario.alice = true /\
  get_subject Scenario.linked 42 (Scenario.lower "cs101")
    = Some (Subject (Some "PLabc") None) /\
  playlist_items Scenario.healthy "PLabc" = inr [Scenario.lec1] /\
  resolve_transcript Scenario.healthy "v1" = inr "hello world" /\
  chat_completion Scenario.healthy (build_prompt "Lec 1" "hello world")
    = inr ("- point one" +:+ Str.nl +:+ "- point two") /\
  get_subject
    (data (latest_lecture_summary Scenario.lower Scenario.alice "cs101"
             Scenario.healthy Scenario.linked)) 42 "cs101"
  = Some (Subject (Some "PLabc")
            (Some (LectureCache "hello world"
                     ("- point one" +:+ Str.nl +:+ "- point two") "Lec 1"))).
Proof.
  do 5 (split; [reflexivity|]).
  exact (proj1 (proj2 (proj2
           (latest_success Scenario.lower Scenario.alice "cs101"
              Scenario.healthy Scenario.linked _ "PLabc" Scenario.lec1 []
              "hello world" ("- point one" +:+ Str.nl +:+ "- point two")
              eq_refl eq_refl eq_refl eq_refl eq_refl eq_refl)))).
Defined.

Lemma texts_first_textless_witness :
  map caption_text [DictItem (Some (PyStr "a"));
                    ObjItem "Snippet" (Some (PyOther "float"))]
    = map Some [PyStr "a"; PyOther "float"] /\
  texts ([DictItem (Some (PyStr "a"));
          ObjItem "Snippet" (Some (PyOther "float"))]
           ++ DictItem None :: [DictItem (Some (PyStr "c"))])
    = inl (Exc "KeyError" "'text'").
Proof.
  split; [reflexivity|].
  exact (proj1 (texts_first_textless
                  [DictItem (Some (PyStr "a"));
                   ObjItem "Snippet" (Some (PyOther "float"))]
                  [PyStr "a"; PyOther "float"]
                  [DictItem (Some (PyStr "c"))] eq_refl)).
Defined.

Lemma render_tells_kind_witness :
  reply_kind (Whoops Scenario.timed_out)
    <> reply_kind (TranscriptError Scenario.timed_out "https://www.youtube.com/watch?v=v1") /\
  render (Whoops Scenario.timed_out)
    <> render (TranscriptError Scenario.timed_out "https://www.youtube.com/watch?v=v1").
Proof.
  assert (reply_kind (Whoops Scenario.timed_out)
          <> reply_kind (TranscriptError Scenario.timed_out
                           "https://www.youtube.com/watch?v=v1")) as Hk
    by discriminate.
  split; [exact Hk|].
  exact (render_tells_kind _ _ Hk).
Defined.

Lemma add_subject_twice_witness :
  is_dm Scenario.alice = true /\
  Scenario.lower "cs101" = Scenario.lower "CS101" /\
  add_subject Scenario.lower Scenario.alice "cs101"
    (data (add_subject Scenario.lower Scenario.alice "CS101" ∅))
  = Result (data (add_subject Scenario.lower Scenario.alice "CS101" ∅))
      [] [AlreadyTracking "cs101"].
Proof.
  do 2 (split; [reflexivity|]).
  exact (add_subject_twice Scenario.lower Scenario.alice "CS101" "cs101" ∅
           eq_refl eq_refl).
Defined.

Lemma register_then_link_witness :
  is_dm Scenario.alice = true /\
  Scenario.lower "cs101" = Scenario.lower "CS101" /\
  extract_playlist_id Scenario.playlist_url = Some "PLabc" /\
  head (calls (latest_lecture_summary Scenario.lower Scenario.alice "Cs101"
                 Scenario.empty_playlist
                 (data (set_playlist Scenario.lower Scenario.alice "cs101"
                          Scenario.playlist_url
                          (data (add_subject Scenario.lower Scenario.alice
                                   "CS101" ∅))))))
  = Some (YoutubeList "PLabc").
Proof.
  do 3 (split; [reflexivity|]).
  exact (proj2 (register_then_link Scenario.lower Scenario.alice "CS101"
                  "cs101" Scenario.playlist_url ∅ "PLabc"
                  eq_refl eq_refl eq_refl)
           Scenario.empty_playlist "Cs101" eq_refl).
Defined.

Lemma cached_lecture_provenance_witness :
  get_subject (session Scenario.lower Scenario.silent_session) 42 "cs101"
    = Some (Subject (Some "PLabc")
              (Some (LectureCache "hello world" "" "Lec 1"))) /\
  exists cs1 c cs2,
    Scenario.silent_session = cs1 ++ c :: cs2 /\
    produced_by Scenario.lower (session Scenario.lower cs1) c 42 "cs101"
      (LectureCache "hello world" "" "Lec 1") /\
    forall cs2', cs2' `prefix_of` cs2 ->
      exists subj',
        get_subject (session Scenario.lower (cs1 ++ c :: cs2')) 42 "cs101"
          = Some subj' /\
        cached_lecture subj' = Some (LectureCache "hello world" "" "Lec 1").
Proof.
  split; [reflexivity|].
  exact (cached_lecture_provenance Scenario.lower Scenario.silent_session
           42 "cs101" _ (LectureCache "hello world" "" "Lec 1")
           eq_refl eq_refl).
Defined.
